(** * Comet ORM: the compiler core, embedded in Rocq

    A shallow embedding of the schema parser ([gen/parser.go]), the type
    mapper and naming helpers ([core/utils.go]), the three dialect drivers
    ([drivers/mysql.go], [drivers/sqlite.go] and the postgres driver of the
    same package) and the fluent query builder of package [core]
    ([QueryExecutor]) of nitrix4ly/comet.

    Conventions of the embedding
    - a Go [string] is a Rocq [string]; the model covers ASCII text, so
      [unicode.IsSpace], [unicode.IsUpper] and [unicode.ToLower] are their
      ASCII restrictions and a byte above 127 is an ordinary character;
    - a Go [int] is a [Z]; the only arithmetic the code does on one is the
      postgres argument counter, which is bounded by a slice length, so no
      wrap-around can occur;
    - an [interface{}] is the closed sum [value] of the dynamic types the
      parser and the builder put in one ([nil], [bool], [string]) plus [int];
    - a nil pointer or nil slice is [None] or [[]];
    - [(T, error)] results are pairs with an [option] error, as in Go. *)

From Stdlib Require Import String Ascii List ZArith Lia Bool Arith.
From Stdlib Require Import DecimalString DecimalPos DecimalZ.
Import ListNotations.

Open Scope string_scope.

(** With [string_scope] open, [++] appends strings; [+++] appends lists. *)
Infix "+++" := app (right associativity, at level 60).

(** ** Package [strings] and the [fmt] verbs the code uses *)

Module strings.

Definition HasPrefix (s p : string) : bool := String.prefix p s.

(** [len(s) >= len(suffix) && s[len(s)-len(suffix):] == suffix] *)
Definition HasSuffix (s suffix : string) : bool :=
  (String.length suffix <=? String.length s)%nat &&
  (substring (String.length s - String.length suffix)
             (String.length suffix) s =? suffix).

Definition TrimPrefix (s p : string) : string :=
  if HasPrefix s p
  then substring (String.length p) (String.length s - String.length p) s
  else s.

Definition TrimSuffix (s suffix : string) : string :=
  if HasSuffix s suffix
  then substring 0 (String.length s - String.length suffix) s
  else s.

Definition Join (elems : list string) (sep : string) : string :=
  String.concat sep elems.

(** ASCII white space: tab, line feed, vertical tab, form feed, carriage
    return and space. *)
Definition isSpace (c : ascii) : bool :=
  let n := nat_of_ascii c in
  ((9 <=? n) && (n <=? 13) || (n =? 32))%nat.

Fixpoint TrimLeft (s : string) (cut : ascii -> bool) : string :=
  match s with
  | String c s' => if cut c then TrimLeft s' cut else s
  | EmptyString => EmptyString
  end.

(** The right trim keeps a character when it is not in the cut set or when
    something is kept after it. *)
Fixpoint TrimRight (s : string) (cut : ascii -> bool) : string :=
  match s with
  | String c s' =>
      match TrimRight s' cut with
      | EmptyString => if cut c then EmptyString else String c EmptyString
      | kept => String c kept
      end
  | EmptyString => EmptyString
  end.

Definition TrimFunc (s : string) (cut : ascii -> bool) : string :=
  TrimRight (TrimLeft s cut) cut.

Definition TrimSpace (s : string) : string := TrimFunc s isSpace.

Fixpoint inCutset (cutset : string) (c : ascii) : bool :=
  match cutset with
  | String d rest => Ascii.eqb c d || inCutset rest c
  | EmptyString => false
  end.

Definition Trim (s cutset : string) : string := TrimFunc s (inCutset cutset).

(** [Fields]: the maximal runs of non-space characters, in order.  [cur] is
    the run being read. *)
Fixpoint fieldsFrom (s : string) (cur : string) : list string :=
  match s with
  | String c s' =>
      if isSpace c
      then match cur with
           | EmptyString => fieldsFrom s' EmptyString
           | _ => cur :: fieldsFrom s' EmptyString
           end
      else fieldsFrom s' (cur ++ String c EmptyString)
  | EmptyString =>
      match cur with
      | EmptyString => []
      | _ => [cur]
      end
  end.

Definition Fields (s : string) : list string := fieldsFrom s EmptyString.

Fixpoint Contains (s substr : string) : bool :=
  String.prefix substr s ||
  match s with
  | String _ s' => Contains s' substr
  | EmptyString => false
  end.

(** [ReplaceAll(s, old, new)] for a one-character [old]. *)
Fixpoint ReplaceAllChar (s : string) (old : ascii) (new : string) : string :=
  match s with
  | String c s' =>
      if Ascii.eqb c old then new ++ ReplaceAllChar s' old new
      else String c (ReplaceAllChar s' old new)
  | EmptyString => EmptyString
  end.

(** [Split(s, sep)] for a one-character [sep]: always at least one piece. *)
Fixpoint splitFrom (s : string) (sep : ascii) (cur : string) : list string :=
  match s with
  | String c s' =>
      if Ascii.eqb c sep then cur :: splitFrom s' sep EmptyString
      else splitFrom s' sep (cur ++ String c EmptyString)
  | EmptyString => [cur]
  end.

Definition SplitChar (s : string) (sep : ascii) : list string :=
  splitFrom s sep EmptyString.

Definition isUpper (c : ascii) : bool :=
  let n := nat_of_ascii c in ((65 <=? n) && (n <=? 90))%nat.

Definition isLower (c : ascii) : bool :=
  let n := nat_of_ascii c in ((97 <=? n) && (n <=? 122))%nat.

Definition toLower (c : ascii) : ascii :=
  if isUpper c then ascii_of_nat (nat_of_ascii c + 32) else c.

Definition toUpper (c : ascii) : ascii :=
  if isLower c then ascii_of_nat (nat_of_ascii c - 32) else c.

Fixpoint ToUpper (s : string) : string :=
  match s with
  | String c s' => String (toUpper c) (ToUpper s')
  | EmptyString => EmptyString
  end.

End strings.

(** The double quote, as a character and as a string. *)
Definition dqc : ascii := ascii_of_nat 34.
Definition dq : string := String dqc EmptyString.

(** The line feed of the [\n] escapes. *)
Definition nl : string := String (ascii_of_nat 10) EmptyString.

(** The builtin [append(s, x)] on a slice. *)
Module slice.
Definition append {A : Type} (s : list A) (x : A) : list A := s +++ [x].
End slice.

(** The dynamic values an [interface{}] holds in this program. *)
Inductive value : Type :=
| VNil
| VBool (b : bool)
| VInt (n : Z)
| VString (s : string).

Module fmt.

(** [%d] on an [int]. *)
Definition d (n : Z) : string := NilZero.string_of_int (Z.to_int n).

(** [%t] on a [bool]. *)
Definition t (b : bool) : string := if b then "true" else "false".

(** [%v] on an [interface{}]. *)
Definition v (x : value) : string :=
  match x with
  | VNil => "<nil>"
  | VBool b => t b
  | VInt n => d n
  | VString s => s
  end.

End fmt.

(** ** [core/types.go] *)

Module FieldSchema.
Record t : Type := mk {
  Name : string;
  Type_ : string;
  Optional : bool;
  Unique : bool;
  Primary : bool;
  AutoGen : bool;
  Default : value;
  DatabaseType : string
}.
End FieldSchema.

Module Relation.
Record t : Type := mk {
  Name : string;
  Type_ : string;
  Model : string;
  Fields : list string;
  References : list string
}.
End Relation.

Module ModelSchema.
Record t : Type := mk {
  Name : string;
  TableName : string;
  Fields : list FieldSchema.t;
  Relations : list Relation.t
}.
End ModelSchema.

Module Schema.
Record t : Type := mk { Models : list ModelSchema.t }.
End Schema.

Module WhereClause.
Record t : Type := mk {
  Field : string;
  Operator : string;
  Value : value;
  Not : bool
}.
End WhereClause.

Module OrderClause.
Record t : Type := mk {
  Field : string;
  Direction : string
}.
End OrderClause.

Module Query.
Record t : Type := mk {
  Table : string;
  Fields : list string;
  Wheres : list WhereClause.t;
  Orders : list OrderClause.t;
  LimitVal : option Z;
  OffsetVal : option Z;
  Includes : list string
}.
End Query.

(** ** [core/utils.go] *)

Fixpoint snakeLoop (str : string) (i : nat) (result : string) : string :=
  match str with
  | String r rest =>
      let result :=
        if (0 <? i)%nat && strings.isUpper r then result ++ "_" else result in
      snakeLoop rest (S i) (result ++ String (strings.toLower r) EmptyString)
  | EmptyString => result
  end.

Definition ToSnakeCase (str : string) : string := snakeLoop str 0 EmptyString.

Definition ToPlural (str : string) : string :=
  if strings.HasSuffix str "y" then
    substring 0 (String.length str - 1) str ++ "ies"
  else if strings.HasSuffix str "s" || strings.HasSuffix str "x" ||
          strings.HasSuffix str "z" || strings.HasSuffix str "ch" ||
          strings.HasSuffix str "sh" then
    str ++ "es"
  else str ++ "s".

Definition GetTableName (modelName : string) : string :=
  let snake := ToSnakeCase modelName in
  ToPlural snake.

(** A Go [switch] on a string with several labels per case. *)
Definition oneOf (s : string) (labels : list string) : bool :=
  existsb (String.eqb s) labels.

Definition getPostgresType (goType : string) : string :=
  if oneOf goType ["int"; "Int"] then "INTEGER"
  else if oneOf goType ["int64"] then "BIGINT"
  else if oneOf goType ["string"; "String"] then "VARCHAR(255)"
  else if oneOf goType ["bool"; "Boolean"] then "BOOLEAN"
  else if oneOf goType ["float64"; "Float"] then "DOUBLE PRECISION"
  else if oneOf goType ["time.Time"; "DateTime"] then "TIMESTAMP"
  else "TEXT".

Definition getMySQLType (goType : string) : string :=
  if oneOf goType ["int"; "Int"] then "INT"
  else if oneOf goType ["int64"] then "BIGINT"
  else if oneOf goType ["string"; "String"] then "VARCHAR(255)"
  else if oneOf goType ["bool"; "Boolean"] then "BOOLEAN"
  else if oneOf goType ["float64"; "Float"] then "DOUBLE"
  else if oneOf goType ["time.Time"; "DateTime"] then "TIMESTAMP"
  else "TEXT".

Definition getSQLiteType (goType : string) : string :=
  if oneOf goType ["int"; "Int"; "int64"] then "INTEGER"
  else if oneOf goType ["string"; "String"] then "TEXT"
  else if oneOf goType ["bool"; "Boolean"] then "INTEGER"
  else if oneOf goType ["float64"; "Float"] then "REAL"
  else if oneOf goType ["time.Time"; "DateTime"] then "DATETIME"
  else "TEXT".

Definition GetSQLType (goType driver : string) : string :=
  let baseType := strings.TrimSuffix goType "?" in
  if driver =? "postgres" then getPostgresType baseType
  else if driver =? "mysql" then getMySQLType baseType
  else if driver =? "sqlite" then getSQLiteType baseType
  else getSQLiteType baseType.

(** [ToPascalCase]: the parts between underscores, each with its first
    byte in upper case; empty parts are skipped. *)
Fixpoint pascalLoop (parts : list string) (result : string) : string :=
  match parts with
  | part :: rest =>
      match part with
      | String c tail => pascalLoop rest (result ++ String (strings.toUpper c) tail)
      | EmptyString => pascalLoop rest result
      end
  | [] => result
  end.

Definition ToPascalCase (str : string) : string :=
  let parts := strings.SplitChar str "_" in
  pascalLoop parts EmptyString.

Definition ToCamelCase (str : string) : string :=
  let pascal := ToPascalCase str in
  match pascal with
  | String c tail => String (strings.toLower c) tail
  | EmptyString => pascal
  end.

Definition backtick : ascii := ascii_of_nat 96.

Definition EscapeIdentifier (identifier : string) : string :=
  String backtick
    (strings.ReplaceAllChar identifier backtick (String backtick (String backtick EmptyString))
       ++ String backtick EmptyString).

(** [make([]string, count)] filled with question marks. *)
Definition BuildPlaceholders (count : Z) : string :=
  if (count <=? 0)%Z then EmptyString
  else
    let placeholders := repeat "?" (Z.to_nat count) in
    strings.Join placeholders ", ".

(** The [ORDER BY], [LIMIT] and [OFFSET] tail is the same text in the three
    drivers and in the builder's own compiler. *)
Fixpoint orderLoop (orders : list OrderClause.t) (orderParts : list string)
  : list string :=
  match orders with
  | order :: rest =>
      orderLoop rest
        (slice.append orderParts (OrderClause.Field order ++ " " ++ OrderClause.Direction order))
  | [] => orderParts
  end.

Definition tailParts (query : Query.t) (parts : list string) : list string :=
  let parts :=
    match Query.Orders query with
    | [] => parts
    | _ => slice.append parts ("ORDER BY " ++ strings.Join (orderLoop (Query.Orders query) []) ", ")
    end in
  let parts :=
    match Query.LimitVal query with
    | Some n => slice.append parts ("LIMIT " ++ fmt.d n)
    | None => parts
    end in
  match Query.OffsetVal query with
  | Some n => slice.append parts ("OFFSET " ++ fmt.d n)
  | None => parts
  end.

Definition selectPart (query : Query.t) : string :=
  "SELECT " ++ strings.Join (Query.Fields query) ", " ++ " FROM " ++ Query.Table query.

(** ** Package [drivers]: the postgres driver *)

Module PostgresDriver.

Fixpoint whereLoop (wheres : list WhereClause.t) (whereParts : list string)
    (args : list value) (argIndex : Z) : list string * list value :=
  match wheres with
  | where_ :: rest =>
      let operator :=
        if WhereClause.Not where_ then "NOT " ++ WhereClause.Operator where_
        else WhereClause.Operator where_ in
      if WhereClause.Operator where_ =? "IN" then
        whereLoop rest
          (slice.append whereParts (WhereClause.Field where_ ++ " " ++ operator ++ " "
                            ++ fmt.v (WhereClause.Value where_)))
          args argIndex
      else
        whereLoop rest
          (slice.append whereParts (WhereClause.Field where_ ++ " " ++ operator ++ " $"
                            ++ fmt.d argIndex))
          (slice.append args (WhereClause.Value where_))
          (argIndex + 1)
  | [] => (whereParts, args)
  end.

Definition BuildQuery (query : Query.t) : string * list value :=
  let parts := [selectPart query] in
  let '(parts, args) :=
    match Query.Wheres query with
    | [] => (parts, [])
    | _ =>
        let '(whereParts, args) := whereLoop (Query.Wheres query) [] [] 1 in
        (slice.append parts ("WHERE " ++ strings.Join whereParts " AND "), args)
    end in
  (strings.Join (tailParts query parts) " ", args).

Definition GetDialect : string := "postgres".

Definition buildColumnDefinition (field : FieldSchema.t) : string :=
  let parts := [FieldSchema.Name field] in
  let sqlType := GetSQLType (FieldSchema.Type_ field) "postgres" in
  let sqlType :=
    if FieldSchema.Primary field && FieldSchema.AutoGen field
    then "SERIAL" else sqlType in
  let parts := slice.append parts sqlType in
  let parts :=
    if FieldSchema.Primary field then slice.append parts "PRIMARY KEY"
    else parts in
  let parts :=
    if FieldSchema.Unique field && negb (FieldSchema.Primary field)
    then slice.append parts "UNIQUE" else parts in
  let parts :=
    if negb (FieldSchema.Optional field) && negb (FieldSchema.Primary field)
    then slice.append parts "NOT NULL" else parts in
  let parts :=
    match FieldSchema.Default field with
    | VNil => parts
    | VString v =>
        if v =? "CURRENT_TIMESTAMP"
        then slice.append parts "DEFAULT CURRENT_TIMESTAMP"
        else slice.append parts ("DEFAULT '" ++ v ++ "'")
    | VBool v => slice.append parts ("DEFAULT " ++ fmt.t v)
    | v => slice.append parts ("DEFAULT " ++ fmt.v v)
    end in
  strings.Join parts " ".

Fixpoint columnLoop (fields : list FieldSchema.t) (columns : list string)
  : list string :=
  match fields with
  | field :: rest =>
      let column := buildColumnDefinition field in
      columnLoop rest (slice.append columns column)
  | [] => columns
  end.

Definition CreateTable (model : ModelSchema.t) : string :=
  let columns := columnLoop (ModelSchema.Fields model) [] in
  "CREATE TABLE IF NOT EXISTS " ++ ModelSchema.TableName model ++ " (" ++ nl
    ++ "  " ++ strings.Join columns ("," ++ nl ++ "  ") ++ nl ++ ")".


End PostgresDriver.

(** ** [drivers/mysql.go] *)

Module MySQLDriver.

Fixpoint whereLoop (wheres : list WhereClause.t) (whereParts : list string)
    (args : list value) : list string * list value :=
  match wheres with
  | where_ :: rest =>
      let operator :=
        if WhereClause.Not where_ then "NOT " ++ WhereClause.Operator where_
        else WhereClause.Operator where_ in
      if WhereClause.Operator where_ =? "IN" then
        whereLoop rest
          (slice.append whereParts (WhereClause.Field where_ ++ " " ++ operator ++ " "
                            ++ fmt.v (WhereClause.Value where_)))
          args
      else
        whereLoop rest
          (slice.append whereParts (WhereClause.Field where_ ++ " " ++ operator ++ " ?"))
          (slice.append args (WhereClause.Value where_))
  | [] => (whereParts, args)
  end.

Definition BuildQuery (query : Query.t) : string * list value :=
  let parts := [selectPart query] in
  let '(parts, args) :=
    match Query.Wheres query with
    | [] => (parts, [])
    | _ =>
        let '(whereParts, args) := whereLoop (Query.Wheres query) [] [] in
        (slice.append parts ("WHERE " ++ strings.Join whereParts " AND "), args)
    end in
  (strings.Join (tailParts query parts) " ", args).

Definition GetDialect : string := "mysql".

Definition buildColumnDefinition (field : FieldSchema.t) : string :=
  let parts := [FieldSchema.Name field] in
  let sqlType := GetSQLType (FieldSchema.Type_ field) "mysql" in
  let sqlType :=
    if FieldSchema.Primary field && FieldSchema.AutoGen field
    then "INT AUTO_INCREMENT" else sqlType in
  let parts := slice.append parts sqlType in
  let parts :=
    if FieldSchema.Primary field then slice.append parts "PRIMARY KEY"
    else parts in
  let parts :=
    if FieldSchema.Unique field && negb (FieldSchema.Primary field)
    then slice.append parts "UNIQUE" else parts in
  let parts :=
    if negb (FieldSchema.Optional field) && negb (FieldSchema.Primary field)
    then slice.append parts "NOT NULL" else parts in
  let parts :=
    match FieldSchema.Default field with
    | VNil => parts
    | VString v =>
        if v =? "CURRENT_TIMESTAMP"
        then slice.append parts "DEFAULT CURRENT_TIMESTAMP"
        else slice.append parts ("DEFAULT '" ++ v ++ "'")
    | VBool v => slice.append parts ("DEFAULT " ++ fmt.t v)
    | v => slice.append parts ("DEFAULT " ++ fmt.v v)
    end in
  strings.Join parts " ".

Fixpoint columnLoop (fields : list FieldSchema.t) (columns : list string)
  : list string :=
  match fields with
  | field :: rest =>
      let column := buildColumnDefinition field in
      columnLoop rest (slice.append columns column)
  | [] => columns
  end.

Definition CreateTable (model : ModelSchema.t) : string :=
  let columns := columnLoop (ModelSchema.Fields model) [] in
  "CREATE TABLE IF NOT EXISTS " ++ ModelSchema.TableName model ++ " (" ++ nl
    ++ "  " ++ strings.Join columns ("," ++ nl ++ "  ") ++ nl ++ ") ENGINE=InnoDB DEFAULT CHARSET=utf8mb4".


End MySQLDriver.

(** ** [drivers/sqlite.go] *)

Module SQLiteDriver.

Fixpoint whereLoop (wheres : list WhereClause.t) (whereParts : list string)
    (args : list value) : list string * list value :=
  match wheres with
  | where_ :: rest =>
      let operator :=
        if WhereClause.Not where_ then "NOT " ++ WhereClause.Operator where_
        else WhereClause.Operator where_ in
      if WhereClause.Operator where_ =? "IN" then
        whereLoop rest
          (slice.append whereParts (WhereClause.Field where_ ++ " " ++ operator ++ " "
                            ++ fmt.v (WhereClause.Value where_)))
          args
      else
        whereLoop rest
          (slice.append whereParts (WhereClause.Field where_ ++ " " ++ operator ++ " ?"))
          (slice.append args (WhereClause.Value where_))
  | [] => (whereParts, args)
  end.

Definition BuildQuery (query : Query.t) : string * list value :=
  let parts := [selectPart query] in
  let '(parts, args) :=
    match Query.Wheres query with
    | [] => (parts, [])
    | _ =>
        let '(whereParts, args) := whereLoop (Query.Wheres query) [] [] in
        (slice.append parts ("WHERE " ++ strings.Join whereParts " AND "), args)
    end in
  (strings.Join (tailParts query parts) " ", args).

Definition GetDialect : string := "sqlite".

Definition buildColumnDefinition (field : FieldSchema.t) : string :=
  let parts := [FieldSchema.Name field] in
  let sqlType := GetSQLType (FieldSchema.Type_ field) "sqlite" in
  let sqlType :=
    if FieldSchema.Primary field && FieldSchema.AutoGen field
    then "INTEGER" else sqlType in
  let parts := slice.append parts sqlType in
  let parts :=
    if FieldSchema.Primary field then
      let parts := slice.append parts "PRIMARY KEY" in
      if FieldSchema.AutoGen field then slice.append parts "AUTOINCREMENT"
      else parts
    else parts in
  let parts :=
    if FieldSchema.Unique field && negb (FieldSchema.Primary field)
    then slice.append parts "UNIQUE" else parts in
  let parts :=
    if negb (FieldSchema.Optional field) && negb (FieldSchema.Primary field)
    then slice.append parts "NOT NULL" else parts in
  let parts :=
    match FieldSchema.Default field with
    | VNil => parts
    | VString v =>
        if v =? "CURRENT_TIMESTAMP"
        then slice.append parts "DEFAULT CURRENT_TIMESTAMP"
        else slice.append parts ("DEFAULT '" ++ v ++ "'")
    | VBool v =>
        if v then slice.append parts "DEFAULT 1"
        else slice.append parts "DEFAULT 0"
    | v => slice.append parts ("DEFAULT " ++ fmt.v v)
    end in
  strings.Join parts " ".

Fixpoint columnLoop (fields : list FieldSchema.t) (columns : list string)
  : list string :=
  match fields with
  | field :: rest =>
      let column := buildColumnDefinition field in
      columnLoop rest (slice.append columns column)
  | [] => columns
  end.

Definition CreateTable (model : ModelSchema.t) : string :=
  let columns := columnLoop (ModelSchema.Fields model) [] in
  "CREATE TABLE IF NOT EXISTS " ++ ModelSchema.TableName model ++ " (" ++ nl
    ++ "  " ++ strings.Join columns ("," ++ nl ++ "  ") ++ nl ++ ")".


End SQLiteDriver.


(** ** Package [core]: the fluent builder [QueryExecutor] *)

(** Go's [error], by its message. *)
Definition error : Type := string.

(** The execution collaborator behind [GetDB()]: [QueryRow(...).Scan(&count)]
    leaves a number in [count] and returns the scan's error. *)
Module DB.
Record t : Type := mk {
  QueryRowScan : string -> list value -> Z * option error
}.
End DB.

(** [*sql.Rows] as the builder reads it: the rows [Next] delivers, in order,
    and the error [Err] reports after the last one. *)
Module Rows.
Record t (Row : Type) : Type := mk {
  rows : list Row;
  Err : option error
}.
Arguments mk {Row}.
Arguments rows {Row}.
Arguments Err {Row}.
End Rows.

(** The [Query] method of the collaborator behind [GetDB()]: the rows, or the
    error of the query. *)
Module QueryDB.
Record t (Row : Type) : Type := mk {
  Query : string -> list value -> Rows.t Row + error
}.
Arguments mk {Row}.
Arguments Query {Row}.
End QueryDB.

(** [sql.ErrNoRows]. *)
Definition ErrNoRows : error := "sql: no rows in result set".

Module QueryExecutor.

Record t : Type := mk {
  query : Query.t;
  modelType : string
}.

Definition withQuery (qe : t) (q : Query.t) : t := mk q (modelType qe).

Definition NewQueryExecutor (table modelType : string) : t :=
  mk (Query.mk table ["*"] [] [] None None []) modelType.

Definition setWheres (q : Query.t) (wheres : list WhereClause.t) : Query.t :=
  Query.mk (Query.Table q) (Query.Fields q) wheres (Query.Orders q)
           (Query.LimitVal q) (Query.OffsetVal q) (Query.Includes q).

Definition setOrders (q : Query.t) (orders : list OrderClause.t) : Query.t :=
  Query.mk (Query.Table q) (Query.Fields q) (Query.Wheres q) orders
           (Query.LimitVal q) (Query.OffsetVal q) (Query.Includes q).

Definition setLimitVal (q : Query.t) (l : option Z) : Query.t :=
  Query.mk (Query.Table q) (Query.Fields q) (Query.Wheres q) (Query.Orders q)
           l (Query.OffsetVal q) (Query.Includes q).

Definition setOffsetVal (q : Query.t) (o : option Z) : Query.t :=
  Query.mk (Query.Table q) (Query.Fields q) (Query.Wheres q) (Query.Orders q)
           (Query.LimitVal q) o (Query.Includes q).

Definition setFields (q : Query.t) (fields : list string) : Query.t :=
  Query.mk (Query.Table q) fields (Query.Wheres q) (Query.Orders q)
           (Query.LimitVal q) (Query.OffsetVal q) (Query.Includes q).

Definition setIncludes (q : Query.t) (includes : list string) : Query.t :=
  Query.mk (Query.Table q) (Query.Fields q) (Query.Wheres q) (Query.Orders q)
           (Query.LimitVal q) (Query.OffsetVal q) includes.

Definition Where (qe : t) (field operator : string) (val : value) : t :=
  withQuery qe
    (setWheres (query qe)
       (slice.append (Query.Wheres (query qe))
          (WhereClause.mk field operator val false))).

(** [placeholders[i] = "?"] for every index of a slice as long as
    [values]. *)
Fixpoint placeholdersLoop (values : list value) : list string :=
  match values with
  | _ :: rest => "?" :: placeholdersLoop rest
  | [] => []
  end.

Definition WhereIn (qe : t) (field : string) (values : list value) : t :=
  let placeholders := placeholdersLoop values in
  withQuery qe
    (setWheres (query qe)
       (slice.append (Query.Wheres (query qe))
          (WhereClause.mk field "IN"
             (VString ("(" ++ strings.Join placeholders "," ++ ")")) false))).

Definition WhereNot (qe : t) (field operator : string) (val : value) : t :=
  withQuery qe
    (setWheres (query qe)
       (slice.append (Query.Wheres (query qe))
          (WhereClause.mk field operator val true))).

Definition OrderBy (qe : t) (field direction : string) : t :=
  withQuery qe
    (setOrders (query qe)
       (slice.append (Query.Orders (query qe))
          (OrderClause.mk field (strings.ToUpper direction)))).

Definition Limit (qe : t) (limit : Z) : t :=
  withQuery qe (setLimitVal (query qe) (Some limit)).

Definition Offset (qe : t) (offset : Z) : t :=
  withQuery qe (setOffsetVal (query qe) (Some offset)).

Definition Select (qe : t) (fields : list string) : t :=
  withQuery qe (setFields (query qe) fields).

Definition Include (qe : t) (relations : list string) : t :=
  withQuery qe
    (setIncludes (query qe) (Query.Includes (query qe) +++ relations)).

Fixpoint whereLoop (wheres : list WhereClause.t) (whereParts : list string)
    (args : list value) : list string * list value :=
  match wheres with
  | where_ :: rest =>
      let operator :=
        if WhereClause.Not where_ then "NOT " ++ WhereClause.Operator where_
        else WhereClause.Operator where_ in
      if WhereClause.Operator where_ =? "IN" then
        whereLoop rest
          (slice.append whereParts
             (WhereClause.Field where_ ++ " " ++ operator ++ " "
                ++ fmt.v (WhereClause.Value where_)))
          args
      else
        whereLoop rest
          (slice.append whereParts
             (WhereClause.Field where_ ++ " " ++ operator ++ " ?"))
          (slice.append args (WhereClause.Value where_))
  | [] => (whereParts, args)
  end.

Definition buildSelectQueryFromQuery (q : Query.t) : string * list value :=
  let parts := [selectPart q] in
  let '(parts, args) :=
    match Query.Wheres q with
    | [] => (parts, [])
    | _ =>
        let '(whereParts, args) := whereLoop (Query.Wheres q) [] [] in
        (slice.append parts ("WHERE " ++ strings.Join whereParts " AND "), args)
    end in
  (strings.Join (tailParts q parts) " ", args).

Definition buildSelectQuery (qe : t) : string * list value :=
  buildSelectQueryFromQuery (query qe).

(** The query [Count] hands to the collaborator. *)
Definition countQuery (qe : t) : Query.t :=
  Query.mk (Query.Table (query qe)) ["COUNT(*)"] (Query.Wheres (query qe))
           [] None None [].

Definition Count (GetDB : option DB.t) (qe : t) : Z * option error :=
  match GetDB with
  | None => (0%Z, Some "database not initialized")
  | Some db =>
      let '(query, args) := buildSelectQueryFromQuery (countQuery qe) in
      DB.QueryRowScan db query args
  end.

Definition Exists (GetDB : option DB.t) (qe : t) : bool * option error :=
  let '(count, err) := Count GetDB qe in
  ((count >? 0)%Z, err).

(** The terminal operations that read rows.  The builder's scanner, a
    function from the current row to an item (or nil) and an error, is
    passed beside the builder; the builder after the call is returned with
    the result, since [First] and [Last] write to its query. *)
Fixpoint allLoop {Row Item : Type} (scanner : Row -> option Item * option error)
    (rows : list Row) (results : list (option Item))
  : list (option Item) * option error + list (option Item) :=
  match rows with
  | row :: rest =>
      match scanner row with
      | (_, Some err) => inl ([], Some err)
      | (item, None) => allLoop scanner rest (slice.append results item)
      end
  | [] => inr results
  end.

Definition All {Row Item : Type} (GetDB : option (QueryDB.t Row))
    (scanner : Row -> option Item * option error) (qe : t)
  : list (option Item) * option error :=
  match GetDB with
  | None => ([], Some "database not initialized")
  | Some db =>
      let '(query, args) := buildSelectQuery qe in
      match QueryDB.Query db query args with
      | inr err => ([], Some err)
      | inl rows =>
          match allLoop scanner (Rows.rows rows) [] with
          | inl early => early
          | inr results => (results, Rows.Err rows)
          end
      end
  end.

Definition First {Row Item : Type} (GetDB : option (QueryDB.t Row))
    (scanner : Row -> option Item * option error) (qe : t)
  : t * (option Item * option error) :=
  let qe := withQuery qe (setLimitVal (query qe) (Some 1%Z)) in
  match GetDB with
  | None => (qe, (None, Some "database not initialized"))
  | Some db =>
      let '(query, args) := buildSelectQuery qe in
      match QueryDB.Query db query args with
      | inr err => (qe, (None, Some err))
      | inl rows =>
          match Rows.rows rows with
          | [] => (qe, (None, Some ErrNoRows))
          | row :: _ => (qe, scanner row)
          end
      end
  end.

Definition Last {Row Item : Type} (GetDB : option (QueryDB.t Row))
    (scanner : Row -> option Item * option error) (qe : t)
  : t * (option Item * option error) :=
  let qe :=
    match Query.Orders (query qe) with
    | [] =>
        withQuery qe
          (setOrders (query qe)
             (slice.append (Query.Orders (query qe)) (OrderClause.mk "id" "DESC")))
    | _ => qe
    end in
  First GetDB scanner qe.

End QueryExecutor.

(** ** Package [regexp]: the two patterns of the schema parser *)

Module regexp.

(** [\w] is [[0-9A-Za-z_]]. *)
Definition isWord (c : ascii) : bool :=
  let n := nat_of_ascii c in
  ((48 <=? n) && (n <=? 57))%nat || strings.isUpper c || strings.isLower c
  || Ascii.eqb c "_".

(** [\s] is [[\t\n\f\r ]]. *)
Definition isSpace (c : ascii) : bool :=
  let n := nat_of_ascii c in
  ((n =? 9) || (n =? 10) || (n =? 12) || (n =? 13) || (n =? 32))%nat.

(** The longest prefix whose characters satisfy [p], and what follows: a
    greedy [[class]*]. *)
Fixpoint span (p : ascii -> bool) (s : string) : string * string :=
  match s with
  | String c s' =>
      if p c then let '(taken, rest) := span p s' in (String c taken, rest)
      else (EmptyString, s)
  | EmptyString => (EmptyString, EmptyString)
  end.

Definition isNot (d : ascii) (c : ascii) : bool := negb (Ascii.eqb c d).

(** A literal at the head of [s]: what follows it. *)
Definition literal (lit s : string) : option string :=
  if String.prefix lit s
  then Some (substring (String.length lit) (String.length s - String.length lit) s)
  else None.

(** The attribute pattern of [parseAttributes], anchored at the head of [s]:
    an at-sign, a greedy run of one or more word characters (group 1) and,
    optionally, an opening parenthesis, a greedy run of characters other than
    a closing parenthesis (group 2) and a closing parenthesis.  The result is
    groups 1 and 2 and the length of the match.  The optional part is taken
    whenever a closing parenthesis follows; an absent group reads as the
    empty string. *)
Definition matchAttributeAt (s : string) : option (string * string * nat) :=
  match literal "@" s with
  | Some s1 =>
      let '(name, s2) := span isWord s1 in
      match name with
      | EmptyString => None
      | _ =>
          let bare := Some (name, EmptyString, 1 + String.length name) in
          match literal "(" s2 with
          | Some s3 =>
              let '(arg, s4) := span (isNot ")") s3 in
              match literal ")" s4 with
              | Some _ =>
                  Some (name, arg, 1 + String.length name + 1 + String.length arg + 1)
              | None => bare
              end
          | None => bare
          end
      end
  | None => None
  end.

(** [FindAllStringSubmatch(s, -1)] for the attribute pattern: successive
    matches that do not overlap, left to right.  [skip] counts the
    characters of the last match still to pass. *)
Fixpoint findAllAttributes (s : string) (skip : nat) : list (string * string) :=
  match s with
  | String _ s' =>
      match skip with
      | S k => findAllAttributes s' k
      | O =>
          match matchAttributeAt s with
          | Some (name, arg, len) => (name, arg) :: findAllAttributes s' (len - 1)
          | None => findAllAttributes s' 0
          end
      end
  | EmptyString => []
  end.

(** An optional list of the relation pattern at the head of [s]: a comma,
    spaces, the key, spaces, and a bracketed greedy run of characters other
    than a closing bracket (the group).  The result is the group and what
    follows, or nothing when the optional part does not match. *)
Definition optionalList (key s : string) : option (string * string) :=
  match literal "," s with
  | Some s1 =>
      match literal key (snd (span isSpace s1)) with
      | Some s2 =>
          match literal "[" (snd (span isSpace s2)) with
          | Some s3 =>
              let '(items, s4) := span (isNot "]") s3 in
              match literal "]" s4 with
              | Some s5 => Some (items, s5)
              | None => None
              end
          | None => None
          end
      | None => None
      end
  | None => None
  end.

(** The relation pattern of [parseRelationAttributes], anchored at the head
    of [s]: the literal [@relation(], a quoted label (group 1), the optional
    lists [fields:] (group 2) and [references:] (group 3) and a closing
    parenthesis.  Every choice the pattern offers is settled by the next
    character, so the greedy reading is the only one. *)
Definition matchRelationAt (s : string) : option (string * string * string) :=
  match literal ("@relation(" ++ dq) s with
  | Some s1 =>
      let '(name, s2) := span (isNot dqc) s1 in
      match literal dq s2 with
      | Some s3 =>
          let '(fields, s4) :=
            match optionalList "fields:" s3 with
            | Some (items, rest) => (items, rest)
            | None => (EmptyString, s3)
            end in
          let '(references, s5) :=
            match optionalList "references:" s4 with
            | Some (items, rest) => (items, rest)
            | None => (EmptyString, s4)
            end in
          match literal ")" s5 with
          | Some _ => Some (name, fields, references)
          | None => None
          end
      | None => None
      end
  | None => None
  end.

(** [FindStringSubmatch(s)] for the relation pattern: the leftmost match. *)
Fixpoint findRelation (s : string) : option (string * string * string) :=
  match matchRelationAt s with
  | Some m => Some m
  | None =>
      match s with
      | String _ s' => findRelation s'
      | EmptyString => None
      end
  end.

End regexp.

(** ** [gen/parser.go] *)

(** What [os.Open] and the [bufio.Scanner] deliver for a file name: an error
    on opening, or the lines in order, terminators removed, and the error the
    scanner stopped on, if any. *)
Module File.
Inductive t : Type :=
| OpenError (err : error)
| Lines (lines : list string) (scanErr : option error).
End File.

Module Parser.

Record t : Type := mk { schema : Schema.t }.

Definition NewParser : t := mk (Schema.mk []).

Definition appendModel (p : t) (m : ModelSchema.t) : t :=
  mk (Schema.mk (slice.append (Schema.Models (schema p)) m)).

Definition parseDefaultValue (val : string) : value :=
  let val := strings.Trim val (dq ++ "'") in
  if val =? "now()" then VString "CURRENT_TIMESTAMP"
  else if val =? "true" then VBool true
  else if val =? "false" then VBool false
  else if strings.Contains val "." then VString val
  else VString val.

Definition setPrimary (f : FieldSchema.t) (b : bool) : FieldSchema.t :=
  FieldSchema.mk (FieldSchema.Name f) (FieldSchema.Type_ f) (FieldSchema.Optional f)
    (FieldSchema.Unique f) b (FieldSchema.AutoGen f) (FieldSchema.Default f)
    (FieldSchema.DatabaseType f).

Definition setAutoGen (f : FieldSchema.t) (b : bool) : FieldSchema.t :=
  FieldSchema.mk (FieldSchema.Name f) (FieldSchema.Type_ f) (FieldSchema.Optional f)
    (FieldSchema.Unique f) (FieldSchema.Primary f) b (FieldSchema.Default f)
    (FieldSchema.DatabaseType f).

Definition setUnique (f : FieldSchema.t) (b : bool) : FieldSchema.t :=
  FieldSchema.mk (FieldSchema.Name f) (FieldSchema.Type_ f) (FieldSchema.Optional f)
    b (FieldSchema.Primary f) (FieldSchema.AutoGen f) (FieldSchema.Default f)
    (FieldSchema.DatabaseType f).

Definition setDefault (f : FieldSchema.t) (d : value) : FieldSchema.t :=
  FieldSchema.mk (FieldSchema.Name f) (FieldSchema.Type_ f) (FieldSchema.Optional f)
    (FieldSchema.Unique f) (FieldSchema.Primary f) (FieldSchema.AutoGen f) d
    (FieldSchema.DatabaseType f).

Definition setType (f : FieldSchema.t) (ty : string) : FieldSchema.t :=
  FieldSchema.mk (FieldSchema.Name f) ty (FieldSchema.Optional f)
    (FieldSchema.Unique f) (FieldSchema.Primary f) (FieldSchema.AutoGen f)
    (FieldSchema.Default f) (FieldSchema.DatabaseType f).

Fixpoint attributeLoop (matches : list (string * string)) (field : FieldSchema.t)
  : FieldSchema.t :=
  match matches with
  | (attrName, attrValue) :: rest =>
      let field :=
        if attrName =? "id" then setPrimary field true
        else if attrName =? "auto" then setAutoGen field true
        else if attrName =? "unique" then setUnique field true
        else if attrName =? "default" then setDefault field (parseDefaultValue attrValue)
        else if attrName =? "updatedAt" then
          setDefault (setType field "DateTime") (VString "now()")
        else field in
      attributeLoop rest field
  | [] => field
  end.

Definition parseAttributes (attributeStr : string) (field : FieldSchema.t)
  : FieldSchema.t * option error :=
  let matches := regexp.findAllAttributes attributeStr 0 in
  (attributeLoop matches field, None).

Definition splitList (group : string) : list string :=
  strings.SplitChar (strings.ReplaceAllChar group " " EmptyString) ",".

Definition parseRelationAttributes (attributeStr : string) (relation : Relation.t)
  : Relation.t * option error :=
  let match_ := regexp.findRelation attributeStr in
  let name :=
    match match_ with
    | Some (g1, _, _) => g1
    | None => Relation.Name relation
    end in
  let fields :=
    match match_ with
    | Some (_, String c g2, _) => splitList (String c g2)
    | _ => Relation.Fields relation
    end in
  let references :=
    match match_ with
    | Some (_, _, String c g3) => splitList (String c g3)
    | _ => Relation.References relation
    end in
  let type :=
    match fields, references with
    | _ :: _, _ :: _ => "belongsTo"
    | _, _ => Relation.Type_ relation
    end in
  (Relation.mk name type (Relation.Model relation) fields references, None).

Definition parseRelation (line : string) (model : ModelSchema.t)
  : ModelSchema.t * option error :=
  match strings.Fields line with
  | fieldName :: fieldType_ :: attributes =>
      let fieldType := strings.TrimSuffix fieldType_ "[]" in
      let relation := Relation.mk fieldName "hasMany" fieldType [] [] in
      let attributeStr := strings.Join attributes " " in
      match parseRelationAttributes attributeStr relation with
      | (_, Some err) => (model, Some err)
      | (relation, None) =>
          (ModelSchema.mk (ModelSchema.Name model) (ModelSchema.TableName model)
             (ModelSchema.Fields model)
             (slice.append (ModelSchema.Relations model) relation), None)
      end
  | _ => (model, Some "invalid relation definition")
  end.

Definition parseField (line : string) (model : ModelSchema.t)
  : ModelSchema.t * option error :=
  match strings.Fields line with
  | fieldName :: fieldType :: attributes =>
      let field :=
        FieldSchema.mk fieldName (strings.TrimSuffix fieldType "?")
          (strings.HasSuffix fieldType "?") false false false VNil EmptyString in
      if strings.HasSuffix fieldType "[]" then parseRelation line model
      else
        let attributeStr := strings.Join attributes " " in
        match parseAttributes attributeStr field with
        | (_, Some err) => (model, Some err)
        | (field, None) =>
            (ModelSchema.mk (ModelSchema.Name model) (ModelSchema.TableName model)
               (slice.append (ModelSchema.Fields model) field)
               (ModelSchema.Relations model), None)
        end
  | _ => (model, Some "invalid field definition")
  end.

(** The scanning loop of [ParseFile]: the parser, the model being read and
    the [inModel] flag after the lines, and the error that stopped it. *)
Fixpoint scanLoop (lines : list string) (p : t)
    (currentModel : option ModelSchema.t) (inModel : bool)
  : t * option ModelSchema.t * option error :=
  match lines with
  | text :: rest =>
      let line := strings.TrimSpace text in
      if (line =? EmptyString) || strings.HasPrefix line "//" then
        scanLoop rest p currentModel inModel
      else if strings.HasPrefix line "model " then
        let p :=
          match currentModel with
          | Some m => appendModel p m
          | None => p
          end in
        let modelName :=
          strings.TrimSpace
            (strings.TrimSuffix (strings.TrimPrefix line "model ") "{") in
        scanLoop rest p
          (Some (ModelSchema.mk modelName (GetTableName modelName) [] [])) true
      else if (line =? "}") && inModel then
        match currentModel with
        | Some m => scanLoop rest (appendModel p m) None false
        | None => scanLoop rest p currentModel false
        end
      else
        match inModel, currentModel with
        | true, Some m =>
            match parseField line m with
            | (_, Some err) =>
                (p, currentModel,
                 Some ("error parsing field '" ++ line ++ "': " ++ err))
            | (m, None) => scanLoop rest p (Some m) inModel
            end
        | _, _ => scanLoop rest p currentModel inModel
        end
  | [] => (p, currentModel, None)
  end.

Definition ParseFile (p : t) (file : File.t)
  : t * (option Schema.t * option error) :=
  match file with
  | File.OpenError err => (p, (None, Some err))
  | File.Lines lines scanErr =>
      match scanLoop lines p None false with
      | (p, _, Some err) => (p, (None, Some err))
      | (p, currentModel, None) =>
          let p :=
            match currentModel with
            | Some m => appendModel p m
            | None => p
            end in
          (p, (Some (schema p), scanErr))
      end
  end.

End Parser.

(** ** [gen/emitter.go]: the Go type of a schema type *)

Definition getGoType (fieldType : string) : string :=
  if fieldType =? "Int" then "int"
  else if fieldType =? "String" then "string"
  else if fieldType =? "Boolean" then "bool"
  else if fieldType =? "Float" then "float64"
  else if fieldType =? "DateTime" then "time.Time"
  else "string".

(** ** [core/types.go]: [BaseModel], with an instant of time as a number *)

Module BaseModel.
Record t : Type := mk {
  ID : Z;
  CreatedAt : Z;
  UpdatedAt : Z;
  isNew : bool
}.

Definition IsNew (b : t) : bool := isNew b || (ID b =? 0)%Z.

Definition SetNew (b : t) (isNew : bool) : t :=
  mk (ID b) (CreatedAt b) (UpdatedAt b) isNew.

(** [now] is what [time.Now()] returns. *)
Definition Touch (now : Z) (b : t) : t :=
  let b := if IsNew b then mk (ID b) now (UpdatedAt b) (isNew b) else b in
  mk (ID b) (CreatedAt b) now (isNew b).
End BaseModel.

(** * Vocabulary of the specification

    The properties below read the compiled SQL as text: a placeholder of
    mysql and sqlite is a question mark, a placeholder of postgres is a dollar
    sign followed by its number. *)

Fixpoint countChar (c : ascii) (s : string) : nat :=
  match s with
  | String d s' => (if Ascii.eqb d c then 1 else 0) + countChar c s'
  | EmptyString => 0
  end.

Fixpoint allChars (p : ascii -> bool) (s : string) : bool :=
  match s with
  | String c s' => p c && allChars p s'
  | EmptyString => true
  end.

Definition isDigit (c : ascii) : bool :=
  let n := nat_of_ascii c in ((48 <=? n) && (n <=? 57))%nat.

Definition isNumeralChar (c : ascii) : bool := isDigit c || Ascii.eqb c "-".

(** The text starts with something other than a digit, or is empty. *)
Definition startsNonDigit (s : string) : bool :=
  match s with
  | String c _ => negb (isDigit c)
  | EmptyString => true
  end.

(** The labels of the postgres placeholders of a text, left to right: the
    digits that follow each dollar sign. *)
Fixpoint pgLabels (s : string) : list string :=
  match s with
  | String c s' =>
      if Ascii.eqb c "$" then fst (regexp.span isDigit s') :: pgLabels s'
      else pgLabels s'
  | EmptyString => []
  end.

(** The number a label denotes. *)
Definition labelNumber (label : string) : option Z :=
  option_map Z.of_int (NilZero.int_of_string label).

Definition pgNumbers (s : string) : list (option Z) :=
  map labelNumber (pgLabels s).

(** The numbers [1 .. n]. *)
Definition upTo (n : nat) : list Z := map Z.of_nat (seq 1 n).

Definition isIN (w : WhereClause.t) : bool := WhereClause.Operator w =? "IN".

Definition noIN (q : Query.t) : Prop :=
  forall w, In w (Query.Wheres q) -> isIN w = false.

(** The strings of a query that reach the SQL text as they are. *)
Definition identifiers (q : Query.t) : list string :=
  Query.Table q ::
  Query.Fields q
  +++ flat_map (fun w => [WhereClause.Field w; WhereClause.Operator w]) (Query.Wheres q)
  +++ flat_map (fun o => [OrderClause.Field o; OrderClause.Direction o]) (Query.Orders q).

Definition freeOf (c : ascii) (q : Query.t) : Prop :=
  forall s, In s (identifiers q) -> countChar c s = 0.

(** The operator of a clause as it is rendered. *)
Definition opText (w : WhereClause.t) : string :=
  if WhereClause.Not w then "NOT " ++ WhereClause.Operator w
  else WhereClause.Operator w.

(** A clause as it is rendered, given the placeholder of a bound clause. *)
Definition clauseText (placeholder : string) (w : WhereClause.t) : string :=
  WhereClause.Field w ++ " " ++ opText w ++ " "
    ++ (if isIN w then fmt.v (WhereClause.Value w) else placeholder).

(** The fragments of a postgres [WHERE], the next argument number being [k]. *)
Fixpoint pgClauses (k : Z) (wheres : list WhereClause.t) : list string :=
  match wheres with
  | w :: rest =>
      clauseText ("$" ++ fmt.d k) w
        :: pgClauses (if isIN w then k else (k + 1)%Z) rest
  | [] => []
  end.

(** The values the clauses bind, in order. *)
Definition boundValues (wheres : list WhereClause.t) : list value :=
  map WhereClause.Value (filter (fun w => negb (isIN w)) wheres).

(** The optional parts after the [WHERE]. *)
Definition orderOf (q : Query.t) : list string :=
  match Query.Orders q with
  | [] => []
  | _ => ["ORDER BY " ++ strings.Join
            (map (fun o => OrderClause.Field o ++ " " ++ OrderClause.Direction o)
                 (Query.Orders q)) ", "]
  end.

Definition limitOf (q : Query.t) : list string :=
  match Query.LimitVal q with Some n => ["LIMIT " ++ fmt.d n] | None => [] end.

Definition offsetOf (q : Query.t) : list string :=
  match Query.OffsetVal q with Some n => ["OFFSET " ++ fmt.d n] | None => [] end.

Definition tailOf (q : Query.t) : list string :=
  orderOf q +++ limitOf q +++ offsetOf q.

(** The [WHERE] part, given the fragments. *)
Definition whereOf (fragments : list string) : list string :=
  match fragments with
  | [] => []
  | _ => ["WHERE " ++ strings.Join fragments " AND "]
  end.

(** A character that no keyword or separator of the compilers contains:
    the two placeholder characters. *)
Definition placeholderChar (c : ascii) : Prop := c = "?"%char \/ c = "$"%char.

(** A compiler splices the group of an added IN clause into its text and
    binds nothing for it: [q] is the query before, [q'] the query after. *)
Definition splicesGroup (compile : Query.t -> string * list value)
    (q q' : Query.t) (field group : string) : Prop :=
  snd (compile q') = snd (compile q) /\
  (exists fragments,
      fst (compile q)
        = strings.Join (selectPart q :: whereOf fragments +++ tailOf q) " " /\
      fst (compile q')
        = strings.Join
            (selectPart q :: whereOf (fragments +++ [field ++ " IN " ++ group])
               +++ tailOf q) " ") /\
  countChar "?" (fst (compile q'))
    = countChar "?" (fst (compile q)) + countChar "?" field + countChar "?" group.

(** The rows of the type mapper: the abstract type, then the column type
    under postgres, mysql and sqlite. *)
Definition typeTable : list (string * (string * string * string)) :=
  [ ("Int", ("INTEGER", "INT", "INTEGER"));
    ("int", ("INTEGER", "INT", "INTEGER"));
    ("int64", ("BIGINT", "BIGINT", "INTEGER"));
    ("String", ("VARCHAR(255)", "VARCHAR(255)", "TEXT"));
    ("string", ("VARCHAR(255)", "VARCHAR(255)", "TEXT"));
    ("Boolean", ("BOOLEAN", "BOOLEAN", "INTEGER"));
    ("bool", ("BOOLEAN", "BOOLEAN", "INTEGER"));
    ("Float", ("DOUBLE PRECISION", "DOUBLE", "REAL"));
    ("float64", ("DOUBLE PRECISION", "DOUBLE", "REAL"));
    ("DateTime", ("TIMESTAMP", "TIMESTAMP", "DATETIME"));
    ("time.Time", ("TIMESTAMP", "TIMESTAMP", "DATETIME")) ].

(** The row of a type, and the generic text row of a type the table omits. *)
Definition lookupType (base : string) : string * string * string :=
  match find (fun row => base =? fst row) typeTable with
  | Some row => snd row
  | None => ("TEXT", "TEXT", "TEXT")
  end.

(** [s] ends with [suffix]. *)
Definition endsWith (s suffix : string) : Prop := exists p, s = p ++ suffix.




(** The table name of a model is the one derived from its name. *)
Definition derivedTableName (m : ModelSchema.t) : Prop :=
  ModelSchema.TableName m = GetTableName (ModelSchema.Name m).


(** A call of the fluent builder. *)
Inductive call : Type :=
| CWhere (field operator : string) (val : value)
| CWhereIn (field : string) (values : list value)
| CWhereNot (field operator : string) (val : value)
| COrderBy (field direction : string)
| CLimit (limit : Z)
| COffset (offset : Z)
| CSelect (fields : list string)
| CInclude (relations : list string).

Definition applyCall (qe : QueryExecutor.t) (c : call) : QueryExecutor.t :=
  match c with
  | CWhere f op v => QueryExecutor.Where qe f op v
  | CWhereIn f vs => QueryExecutor.WhereIn qe f vs
  | CWhereNot f op v => QueryExecutor.WhereNot qe f op v
  | COrderBy f d => QueryExecutor.OrderBy qe f d
  | CLimit n => QueryExecutor.Limit qe n
  | COffset n => QueryExecutor.Offset qe n
  | CSelect fs => QueryExecutor.Select qe fs
  | CInclude rs => QueryExecutor.Include qe rs
  end.

(** A chain of calls, first call first. *)
Definition applyCalls (qe : QueryExecutor.t) (calls : list call) : QueryExecutor.t :=
  fold_left applyCall calls qe.

(** The value a call binds: the value of a filter whose operator is not IN. *)
Definition callBinds (c : call) : list value :=
  match c with
  | CWhere _ op v | CWhereNot _ op v => if op =? "IN" then [] else [v]
  | _ => []
  end.






(** A line the parser passes over: blank, or a comment. *)
Definition ignoredLine (text : string) : bool :=
  let line := strings.TrimSpace text in
  (line =? EmptyString) || strings.HasPrefix line "//".

Definition isAscii (c : ascii) : bool := (nat_of_ascii c <? 128)%nat.



(** The first character in upper case. *)
Definition capitalize (s : string) : string :=
  match s with
  | String c tail => String (strings.toUpper c) tail
  | EmptyString => EmptyString
  end.

(** A word of a snake_case name: a lower-case letter, then lower-case letters
    and digits. *)
Definition isLowerOrDigit (c : ascii) : bool := strings.isLower c || isDigit c.

Definition snakeWord (w : string) : bool :=
  match w with
  | String c tail => strings.isLower c && allChars isLowerOrDigit tail
  | EmptyString => false
  end.

(** The text of [ToSnakeCase] from a position on; [first] tells whether it is
    the first position. *)
Fixpoint snakeFrom (first : bool) (s : string) : string :=
  match s with
  | String c rest =>
      (if negb first && strings.isUpper c then "_" else EmptyString)
        ++ String (strings.toLower c) (snakeFrom false rest)
  | EmptyString => EmptyString
  end.

(** The inverse of [EscapeIdentifier] on its body: doubled backticks become
    one. *)
Fixpoint collapseBackticks (s : string) : string :=
  match s with
  | String a rest =>
      match rest with
      | String b rest' =>
          if Ascii.eqb a backtick && Ascii.eqb b backtick
          then String backtick (collapseBackticks rest')
          else String a (collapseBackticks rest)
      | EmptyString => String a EmptyString
      end
  | EmptyString => EmptyString
  end.

(** What [EscapeIdentifier] writes for one backtick. *)
Definition doubled : string := String backtick (String backtick EmptyString).

Definition UnescapeIdentifier (escaped : string) : string :=
  collapseBackticks (substring 1 (String.length escaped - 2) escaped).

(** * Strings: appending, joining, counting *)

Lemma str_app_assoc (a b c : string) : (a ++ b) ++ c = a ++ (b ++ c).
Proof. induction a as [|x a IH]; simpl; [reflexivity | now rewrite IH]. Qed.

Lemma str_app_nil_r (a : string) : a ++ EmptyString = a.
Proof. induction a as [|x a IH]; simpl; [reflexivity | now rewrite IH]. Qed.

Lemma str_length_app (a b : string) :
  String.length (a ++ b) = String.length a + String.length b.
Proof. induction a as [|x a IH]; simpl; [reflexivity | now rewrite IH]. Qed.

Lemma countChar_app c (a b : string) :
  countChar c (a ++ b) = countChar c a + countChar c b.
Proof. induction a as [|x a IH]; simpl; [reflexivity | rewrite IH; lia]. Qed.

Lemma countChar_head c s : countChar c (String c s) = S (countChar c s).
Proof. simpl. now rewrite Ascii.eqb_refl. Qed.

Lemma Join_cons2 x y l sep :
  strings.Join (x :: y :: l) sep = x ++ sep ++ strings.Join (y :: l) sep.
Proof. reflexivity. Qed.

Lemma Join_snoc l x sep :
  l <> [] ->
  strings.Join (l +++ [x]) sep = strings.Join l sep ++ sep ++ x.
Proof.
  induction l as [|y l IH]; intros Hne; [congruence|].
  destruct l as [|z l].
  - reflexivity.
  - change ((y :: z :: l) +++ [x]) with (y :: (z :: l) +++ [x]).
    change (strings.Join (y :: (z :: l) +++ [x]) sep)
      with (y ++ sep ++ strings.Join ((z :: l) +++ [x]) sep).
    rewrite IH by discriminate.
    rewrite Join_cons2, !str_app_assoc. reflexivity.
Qed.

Lemma countChar_Join c sep l :
  countChar c sep = 0 ->
  countChar c (strings.Join l sep) = list_sum (map (countChar c) l).
Proof.
  intros Hsep. induction l as [|x l IH]; [reflexivity|].
  destruct l as [|y l].
  - simpl. lia.
  - rewrite Join_cons2, !countChar_app, Hsep, IH. simpl. lia.
Qed.

Lemma allChars_countChar p c s :
  allChars p s = true -> p c = false -> countChar c s = 0.
Proof.
  intros Hall Hc. induction s as [|x s IH]; [reflexivity|].
  simpl in *. apply andb_true_iff in Hall as [Hx Hs].
  destruct (Ascii.eqb_spec x c) as [->|_]; [congruence|]. now rewrite IH.
Qed.

Lemma allChars_weaken (p q : ascii -> bool) s :
  (forall c, p c = true -> q c = true) -> allChars p s = true -> allChars q s = true.
Proof.
  intros Hpq. induction s as [|x s IH]; simpl; [reflexivity|].
  intros H. apply andb_true_iff in H as [Hx Hs].
  rewrite (Hpq _ Hx), (IH Hs). reflexivity.
Qed.

(** ** The decimal numerals of [%d] *)

Lemma string_of_uint_digits (u : Decimal.uint) :
  allChars isDigit (NilEmpty.string_of_uint u) = true.
Proof. induction u; simpl; auto. Qed.

Lemma fmt_d_digits (n : Z) : (0 <= n)%Z -> allChars isDigit (fmt.d n) = true.
Proof.
  intros Hn. unfold fmt.d. destruct n as [|p|p]; [reflexivity| |lia].
  simpl. unfold NilZero.string_of_uint.
  destruct (Pos.to_uint p) eqn:E; try reflexivity;
    rewrite <- E; apply string_of_uint_digits.
Qed.

Lemma fmt_d_numeral (n : Z) : allChars isNumeralChar (fmt.d n) = true.
Proof.
  assert (Hw : forall s, allChars isDigit s = true -> allChars isNumeralChar s = true).
  { intros s. apply allChars_weaken. intros c Hc. unfold isNumeralChar. now rewrite Hc. }
  destruct n as [|p|p].
  - reflexivity.
  - apply Hw, fmt_d_digits. lia.
  - unfold fmt.d. simpl. apply Hw.
    unfold NilZero.string_of_uint.
    destruct (Pos.to_uint p) eqn:E; try reflexivity;
      rewrite <- E; apply string_of_uint_digits.
Qed.

Lemma countChar_fmt_d c n : isNumeralChar c = false -> countChar c (fmt.d n) = 0.
Proof. intros Hc. eapply allChars_countChar; [apply fmt_d_numeral | exact Hc]. Qed.

Lemma labelNumber_fmt_d (n : Z) : (0 < n)%Z -> labelNumber (fmt.d n) = Some n.
Proof.
  intros Hn. unfold labelNumber, fmt.d.
  rewrite NilZero.isi.
  - simpl. now rewrite DecimalZ.of_to.
  - destruct n; simpl; try lia. intros [= H].
    now apply (DecimalPos.Unsigned.to_uint_nonnil p).
  - destruct n; simpl; try lia; discriminate.
Qed.

(** * The compilers in closed form *)

Lemma orderLoop_spec orders acc :
  orderLoop orders acc =
  acc +++ map (fun o => OrderClause.Field o ++ " " ++ OrderClause.Direction o) orders.
Proof.
  revert acc. induction orders as [|o orders IH]; intros acc; simpl.
  - now rewrite app_nil_r.
  - rewrite IH. unfold slice.append. now rewrite <- app_assoc.
Qed.

Lemma tailParts_spec q parts : tailParts q parts = parts +++ tailOf q.
Proof.
  unfold tailParts, tailOf, orderOf, limitOf, offsetOf, slice.append.
  rewrite orderLoop_spec. simpl.
  destruct (Query.Orders q), (Query.LimitVal q), (Query.OffsetVal q);
    simpl; rewrite <- ?app_assoc, ?app_nil_r; reflexivity.
Qed.

Lemma clauseText_IN ph w :
  isIN w = true ->
  clauseText ph w =
  WhereClause.Field w ++ " " ++ opText w ++ " " ++ fmt.v (WhereClause.Value w).
Proof. unfold clauseText. now intros ->. Qed.

Lemma clauseText_bound ph w :
  isIN w = false ->
  clauseText ph w = WhereClause.Field w ++ " " ++ opText w ++ " " ++ ph.
Proof. unfold clauseText. now intros ->. Qed.

Ltac where_loop_spec :=
  let ws := fresh "ws" in let w := fresh "w" in let IH := fresh "IH" in
  intros ws; induction ws as [|w ws IH]; intros parts args; simpl;
  [ now rewrite !app_nil_r
  | unfold boundValues; simpl; fold (isIN w); fold (opText w);
    destruct (isIN w) eqn:E; simpl; rewrite IH; unfold slice.append, boundValues;
    rewrite <- !app_assoc; simpl;
    [ rewrite (clauseText_IN _ _ E) | rewrite (clauseText_bound _ _ E) ];
    reflexivity ].

Lemma sqlite_whereLoop_spec :
  forall ws parts args,
    SQLiteDriver.whereLoop ws parts args =
    (parts +++ map (clauseText "?") ws, args +++ boundValues ws).
Proof. where_loop_spec. Qed.

Lemma mysql_whereLoop_spec :
  forall ws parts args,
    MySQLDriver.whereLoop ws parts args =
    (parts +++ map (clauseText "?") ws, args +++ boundValues ws).
Proof. where_loop_spec. Qed.

Lemma executor_whereLoop_spec :
  forall ws parts args,
    QueryExecutor.whereLoop ws parts args =
    (parts +++ map (clauseText "?") ws, args +++ boundValues ws).
Proof. where_loop_spec. Qed.

Lemma postgres_whereLoop_spec :
  forall ws parts args k,
    PostgresDriver.whereLoop ws parts args k =
    (parts +++ pgClauses k ws, args +++ boundValues ws).
Proof.
  intros ws; induction ws as [|w ws IH]; intros parts args k; simpl.
  - now rewrite !app_nil_r.
  - unfold boundValues; simpl; fold (isIN w); fold (opText w).
    destruct (isIN w) eqn:E; simpl; rewrite IH; unfold slice.append, boundValues;
      rewrite <- !app_assoc; simpl.
    + now rewrite (clauseText_IN _ _ E).
    + now rewrite (clauseText_bound _ _ E).
Qed.

(** The text of a compiled query: the parts, joined by one space. *)
Lemma sqlite_BuildQuery_spec q :
  SQLiteDriver.BuildQuery q =
  (strings.Join (selectPart q :: whereOf (map (clauseText "?") (Query.Wheres q))
                   +++ tailOf q) " ",
   boundValues (Query.Wheres q)).
Proof.
  unfold SQLiteDriver.BuildQuery.
  destruct (Query.Wheres q) as [|w ws] eqn:E.
  - now rewrite tailParts_spec.
  - rewrite sqlite_whereLoop_spec, tailParts_spec. reflexivity.
Qed.

Lemma mysql_BuildQuery_spec q :
  MySQLDriver.BuildQuery q =
  (strings.Join (selectPart q :: whereOf (map (clauseText "?") (Query.Wheres q))
                   +++ tailOf q) " ",
   boundValues (Query.Wheres q)).
Proof.
  unfold MySQLDriver.BuildQuery.
  destruct (Query.Wheres q) as [|w ws] eqn:E.
  - now rewrite tailParts_spec.
  - rewrite mysql_whereLoop_spec, tailParts_spec. reflexivity.
Qed.

Lemma executor_build_spec q :
  QueryExecutor.buildSelectQueryFromQuery q =
  (strings.Join (selectPart q :: whereOf (map (clauseText "?") (Query.Wheres q))
                   +++ tailOf q) " ",
   boundValues (Query.Wheres q)).
Proof.
  unfold QueryExecutor.buildSelectQueryFromQuery.
  destruct (Query.Wheres q) as [|w ws] eqn:E.
  - now rewrite tailParts_spec.
  - rewrite executor_whereLoop_spec, tailParts_spec. reflexivity.
Qed.

Lemma postgres_BuildQuery_spec q :
  PostgresDriver.BuildQuery q =
  (strings.Join (selectPart q :: whereOf (pgClauses 1 (Query.Wheres q))
                   +++ tailOf q) " ",
   boundValues (Query.Wheres q)).
Proof.
  unfold PostgresDriver.BuildQuery.
  destruct (Query.Wheres q) as [|w ws] eqn:E.
  - now rewrite tailParts_spec.
  - rewrite postgres_whereLoop_spec, tailParts_spec. reflexivity.
Qed.

Lemma pgClauses_nth ws : forall i k w,
  nth_error ws i = Some w ->
  nth_error (pgClauses k ws) i =
  Some (clauseText
          ("$" ++ fmt.d (k + Z.of_nat (List.length (boundValues (firstn i ws))))) w).
Proof.
  induction ws as [|x ws IH]; intros i k w Hi; destruct i as [|i]; simpl in *;
    try discriminate.
  - injection Hi as ->. now rewrite Z.add_0_r.
  - rewrite (IH _ _ _ Hi). unfold boundValues. simpl.
    destruct (isIN x); simpl; do 4 f_equal; lia.
Qed.

Lemma pgClauses_length ws : forall k, List.length (pgClauses k ws) = List.length ws.
Proof. induction ws as [|x ws IH]; intros k; simpl; [reflexivity | now rewrite IH]. Qed.

Lemma whereOf_cons x l : whereOf (x :: l) = ["WHERE " ++ strings.Join (x :: l) " AND "].
Proof. reflexivity. Qed.

Lemma negated_clauseText ph w :
  WhereClause.Not w = true -> WhereClause.Operator w <> "IN" ->
  clauseText ph w =
  WhereClause.Field w ++ " NOT " ++ WhereClause.Operator w ++ " " ++ ph.
Proof.
  intros Hn Hop. unfold clauseText, opText, isIN. rewrite Hn.
  destruct (String.eqb_spec (WhereClause.Operator w) "IN"); [contradiction|].
  reflexivity.
Qed.

(** ** Counting placeholders in a compiled text *)

Lemma span_fst_app a b :
  startsNonDigit b = true ->
  fst (regexp.span isDigit (a ++ b)) = fst (regexp.span isDigit a).
Proof.
  intros Hb. induction a as [|x a IH]; simpl.
  - destruct b as [|c b]; [reflexivity|]. simpl in *.
    now destruct (isDigit c).
  - destruct (isDigit x); [|reflexivity].
    destruct (regexp.span isDigit (a ++ b)), (regexp.span isDigit a).
    simpl in *. now rewrite IH.
Qed.

Lemma span_all p s : allChars p s = true -> regexp.span p s = (s, EmptyString).
Proof.
  induction s as [|x s IH]; simpl; [reflexivity|].
  intros H. apply andb_true_iff in H as [Hx Hs]. now rewrite Hx, (IH Hs).
Qed.

Lemma pgLabels_app a b :
  startsNonDigit b = true -> pgLabels (a ++ b) = pgLabels a +++ pgLabels b.
Proof.
  intros Hb. induction a as [|x a IH]; simpl; [reflexivity|].
  destruct (Ascii.eqb x "$"); simpl; rewrite IH; [|reflexivity].
  now rewrite (span_fst_app a b Hb).
Qed.

Lemma pgLabels_free a b : countChar "$" a = 0 -> pgLabels (a ++ b) = pgLabels b.
Proof.
  induction a as [|x a IH]; simpl; [reflexivity|].
  destruct (Ascii.eqb x "$"); [discriminate | exact IH].
Qed.

Lemma pgLabels_nil a : countChar "$" a = 0 -> pgLabels a = [].
Proof.
  intros H. rewrite <- (str_app_nil_r a). now rewrite (pgLabels_free a EmptyString H).
Qed.

Lemma pgLabels_Join c sep l :
  isDigit c = false -> countChar "$" (String c sep) = 0 ->
  pgLabels (strings.Join l (String c sep)) = concat (map pgLabels l).
Proof.
  intros Hc Hsep. induction l as [|x l IH]; [reflexivity|].
  destruct l as [|y l].
  - simpl. now rewrite app_nil_r.
  - rewrite Join_cons2, pgLabels_app, (pgLabels_free _ _ Hsep), IH.
    + reflexivity.
    + simpl. now rewrite Hc.
Qed.

Lemma pgLabels_placeholder k : (0 <= k)%Z -> pgLabels ("$" ++ fmt.d k) = [fmt.d k].
Proof.
  intros Hk. simpl. rewrite (span_all _ _ (fmt_d_digits k Hk)). simpl.
  f_equal. apply pgLabels_nil, countChar_fmt_d. reflexivity.
Qed.

Lemma list_sum_zero (l : list nat) : (forall n, In n l -> n = 0) -> list_sum l = 0.
Proof.
  induction l as [|x l IH]; intros H; simpl; [reflexivity|].
  rewrite (H x (or_introl eq_refl)), IH; [reflexivity|].
  intros n Hn. apply H. now right.
Qed.

Lemma countChar_Join_free c sep l :
  countChar c sep = 0 -> (forall s, In s l -> countChar c s = 0) ->
  countChar c (strings.Join l sep) = 0.
Proof.
  intros Hsep Hl. rewrite (countChar_Join _ _ _ Hsep). apply list_sum_zero.
  intros n Hn. apply in_map_iff in Hn as (s & <- & Hs). now apply Hl.
Qed.

Lemma selectPart_free c q :
  placeholderChar c -> freeOf c q -> countChar c (selectPart q) = 0.
Proof.
  intros Hc Hq. unfold selectPart. rewrite !countChar_app.
  rewrite (Hq (Query.Table q)) by (left; reflexivity).
  rewrite countChar_Join_free.
  - destruct Hc as [-> | ->]; reflexivity.
  - destruct Hc as [-> | ->]; reflexivity.
  - intros s Hs. apply Hq. right. apply in_or_app. now left.
Qed.

Lemma tailOf_free c q :
  placeholderChar c -> freeOf c q -> forall s, In s (tailOf q) -> countChar c s = 0.
Proof.
  intros Hc Hq s Hs.
  assert (Hnum : isNumeralChar c = false) by (destruct Hc as [-> | ->]; reflexivity).
  unfold tailOf in Hs. apply in_app_or in Hs as [Hs | Hs];
    [| apply in_app_or in Hs as [Hs | Hs]].
  - unfold orderOf in Hs. destruct (Query.Orders q) as [|o os] eqn:Eo; [contradiction|].
    destruct Hs as [<- | []]. rewrite countChar_app, countChar_Join_free.
    + destruct Hc as [-> | ->]; reflexivity.
    + destruct Hc as [-> | ->]; reflexivity.
    + intros s Hs. apply in_map_iff in Hs as (o' & <- & Ho').
      rewrite !countChar_app.
      assert (Hin : forall t, In t [OrderClause.Field o'; OrderClause.Direction o'] ->
                              countChar c t = 0).
      { intros t Ht. apply Hq. right. apply in_or_app. right. apply in_or_app. right.
        rewrite Eo. apply in_flat_map. exists o'. split; assumption. }
      rewrite (Hin (OrderClause.Field o')), (Hin (OrderClause.Direction o'))
        by (simpl; auto).
      destruct Hc as [-> | ->]; reflexivity.
  - unfold limitOf in Hs. destruct (Query.LimitVal q); [|contradiction].
    destruct Hs as [<- | []]. rewrite countChar_app, (countChar_fmt_d _ _ Hnum).
    destruct Hc as [-> | ->]; reflexivity.
  - unfold offsetOf in Hs. destruct (Query.OffsetVal q); [|contradiction].
    destruct Hs as [<- | []]. rewrite countChar_app, (countChar_fmt_d _ _ Hnum).
    destruct Hc as [-> | ->]; reflexivity.
Qed.

Lemma whereOf_count c frags :
  placeholderChar c ->
  list_sum (map (countChar c) (whereOf frags)) = list_sum (map (countChar c) frags).
Proof.
  intros Hc. destruct frags as [|x l]; [reflexivity|].
  rewrite whereOf_cons. rewrite map_cons.
  change (list_sum (?x :: ?l)) with (x + list_sum l).
  rewrite countChar_app, countChar_Join.
  - destruct Hc as [-> | ->]; simpl; lia.
  - destruct Hc as [-> | ->]; reflexivity.
Qed.

(** The placeholder characters of a compiled text, part by part. *)
Lemma sql_count c q frags :
  placeholderChar c ->
  countChar c (strings.Join (selectPart q :: whereOf frags +++ tailOf q) " ") =
  countChar c (selectPart q) + list_sum (map (countChar c) frags)
  + list_sum (map (countChar c) (tailOf q)).
Proof.
  intros Hc. rewrite countChar_Join by (destruct Hc as [-> | ->]; reflexivity).
  rewrite map_cons, map_app. change (list_sum (?x :: ?l)) with (x + list_sum l).
  rewrite list_sum_app, (whereOf_count _ _ Hc). lia.
Qed.

Lemma where_free_fields c q w :
  freeOf c q -> In w (Query.Wheres q) ->
  countChar c (WhereClause.Field w) = 0 /\ countChar c (WhereClause.Operator w) = 0.
Proof.
  intros Hq Hw.
  assert (Hin : forall t, In t [WhereClause.Field w; WhereClause.Operator w] ->
                          countChar c t = 0).
  { intros t Ht. apply Hq. right. apply in_or_app. right. apply in_or_app. left.
    apply in_flat_map. exists w. split; assumption. }
  split; apply Hin; simpl; auto.
Qed.

Lemma opText_count c w :
  placeholderChar c -> countChar c (opText w) = countChar c (WhereClause.Operator w).
Proof.
  intros Hc. unfold opText. destruct (WhereClause.Not w); [|reflexivity].
  rewrite countChar_app. destruct Hc as [-> | ->]; reflexivity.
Qed.

Lemma boundValues_noIN ws :
  (forall w, In w ws -> isIN w = false) -> boundValues ws = map WhereClause.Value ws.
Proof.
  intros H. unfold boundValues. f_equal.
  induction ws as [|w ws IH]; [reflexivity|]. simpl.
  rewrite (H w (or_introl eq_refl)). simpl. f_equal. apply IH.
  intros w' Hw'. apply H. now right.
Qed.

Lemma concat_map_nil {A B} (f : A -> list B) l :
  (forall x, In x l -> f x = []) -> concat (map f l) = [].
Proof.
  induction l as [|x l IH]; intros H; simpl; [reflexivity|].
  rewrite (H x (or_introl eq_refl)), IH; [reflexivity|].
  intros y Hy. apply H. now right.
Qed.

Lemma question_fragments q :
  noIN q -> freeOf "?" q ->
  list_sum (map (countChar "?") (map (clauseText "?") (Query.Wheres q)))
  = List.length (Query.Wheres q).
Proof.
  intros Hin Hq.
  assert (H : forall w, In w (Query.Wheres q) -> countChar "?" (clauseText "?" w) = 1).
  { intros w Hw. rewrite (clauseText_bound _ _ (Hin w Hw)), !countChar_app.
    rewrite (opText_count "?" w) by (now left).
    destruct (where_free_fields _ _ _ Hq Hw) as [-> ->]. reflexivity. }
  induction (Query.Wheres q) as [|w ws IH]; [reflexivity|].
  simpl map. change (list_sum (?x :: ?l)) with (x + list_sum l).
  rewrite (H w (or_introl eq_refl)), IH; [reflexivity|].
  intros w' Hw'. apply H. now right.
Qed.

Lemma dollar_fragments ws : forall k,
  (0 <= k)%Z ->
  (forall w, In w ws ->
     isIN w = false /\ countChar "$" (WhereClause.Field w) = 0
     /\ countChar "$" (WhereClause.Operator w) = 0) ->
  concat (map pgLabels (pgClauses k ws))
  = map (fun i => fmt.d (k + Z.of_nat i)) (seq 0 (List.length ws)).
Proof.
  induction ws as [|w ws IH]; intros k Hk H; [reflexivity|].
  destruct (H w (or_introl eq_refl)) as (Hin & Hf & Ho).
  simpl pgClauses. rewrite Hin. simpl map. simpl concat.
  rewrite (clauseText_bound _ _ Hin).
  rewrite (pgLabels_free _ _ Hf). simpl pgLabels at 1.
  rewrite pgLabels_free by (now rewrite (opText_count "$" w) by (now right)).
  simpl pgLabels at 1.
  change (fst (regexp.span isDigit (fmt.d k)) :: pgLabels (fmt.d k))
    with (pgLabels ("$" ++ fmt.d k)).
  rewrite (pgLabels_placeholder k Hk), Z.add_0_r. simpl app. f_equal.
  rewrite IH; [| lia | intros w' Hw'; apply H; now right].
  rewrite <- seq_shift, map_map. apply map_ext. intros i. f_equal. lia.
Qed.

Lemma map_fmt_upTo n :
  map (fun i => fmt.d (1 + Z.of_nat i)) (seq 0 n) = map fmt.d (upTo n).
Proof.
  unfold upTo. rewrite <- seq_shift, !map_map. apply map_ext. intros i. f_equal. lia.
Qed.

Lemma labelNumber_upTo n : map labelNumber (map fmt.d (upTo n)) = map Some (upTo n).
Proof.
  unfold upTo. rewrite !map_map. apply map_ext_in. intros i Hi.
  apply in_seq in Hi. apply labelNumber_fmt_d. lia.
Qed.

Lemma boundValues_firstn_noIN ws i :
  (forall w, In w ws -> isIN w = false) -> i <= List.length ws ->
  List.length (boundValues (firstn i ws)) = i.
Proof.
  intros H Hi. rewrite boundValues_noIN.
  - rewrite length_map, length_firstn. lia.
  - intros w Hw. apply H. rewrite <- (firstn_skipn i ws). apply in_or_app. now left.
Qed.

(** ** The IN clause of [WhereIn] *)

Lemma placeholdersLoop_repeat values :
  QueryExecutor.placeholdersLoop values = repeat "?" (List.length values).
Proof. induction values as [|v values IH]; simpl; [reflexivity | now rewrite IH]. Qed.

Lemma countChar_group n :
  countChar "?" ("(" ++ strings.Join (repeat "?" n) "," ++ ")") = n.
Proof.
  rewrite !countChar_app, countChar_Join by reflexivity.
  assert (H : list_sum (map (countChar "?") (repeat "?" n)) = n).
  { induction n as [|n IH]; [reflexivity|]. simpl repeat. rewrite map_cons.
    change (list_sum (?x :: ?l)) with (x + list_sum l). rewrite IH. reflexivity. }
  rewrite H. simpl. lia.
Qed.

Lemma boundValues_app ws ws' :
  boundValues (ws +++ ws') = boundValues ws +++ boundValues ws'.
Proof. unfold boundValues. now rewrite filter_app, map_app. Qed.

Lemma pgClauses_app ws ws' : forall k,
  pgClauses k (ws +++ ws')
  = pgClauses k ws +++ pgClauses (k + Z.of_nat (List.length (boundValues ws))) ws'.
Proof.
  induction ws as [|w ws IH]; intros k; simpl.
  - now rewrite Z.add_0_r.
  - rewrite IH. unfold boundValues. simpl. destruct (isIN w); simpl; do 3 f_equal; lia.
Qed.

Lemma list_sum_snoc l x : list_sum (l +++ [x]) = list_sum l + x.
Proof. rewrite list_sum_app. simpl. lia. Qed.

(** Every bound clause carries at least one placeholder character. *)
Lemma question_lower_bound ws :
  List.length (boundValues ws)
  <= list_sum (map (countChar "?") (map (clauseText "?") ws)).
Proof.
  induction ws as [|w ws IH]; [apply Nat.le_refl|].
  unfold boundValues in *. simpl filter. simpl map.
  change (list_sum (?x :: ?l)) with (x + list_sum l).
  unfold clauseText at 1. destruct (isIN w); simpl negb; cbv iota.
  - lia.
  - rewrite !countChar_app. simpl map. simpl List.length. simpl (countChar "?" "?"). lia.
Qed.

Lemma dollar_lower_bound ws : forall k,
  List.length (boundValues ws) <= list_sum (map (countChar "$") (pgClauses k ws)).
Proof.
  induction ws as [|w ws IH]; intros k; [apply Nat.le_refl|].
  unfold boundValues in *. simpl filter. simpl pgClauses. rewrite map_cons.
  change (list_sum (?x :: ?l)) with (x + list_sum l).
  unfold clauseText at 1. destruct (isIN w); simpl negb; cbv iota.
  - specialize (IH k). lia.
  - rewrite !countChar_app. specialize (IH (k + 1)%Z). simpl map. simpl List.length.
    change ("$" ++ fmt.d k) with (String "$" (fmt.d k)).
    rewrite countChar_head. lia.
Qed.

Lemma in_clauseText ph field group :
  clauseText ph (WhereClause.mk field "IN" (VString group) false)
  = field ++ " IN " ++ group.
Proof. reflexivity. Qed.

Lemma question_splices (compile : Query.t -> string * list value) q q' field group :
  (forall x,
      compile x
      = (strings.Join (selectPart x :: whereOf (map (clauseText "?") (Query.Wheres x))
                         +++ tailOf x) " ",
         boundValues (Query.Wheres x))) ->
  selectPart q' = selectPart q -> tailOf q' = tailOf q ->
  Query.Wheres q' = Query.Wheres q +++ [WhereClause.mk field "IN" (VString group) false] ->
  splicesGroup compile q q' field group /\
  List.length (snd (compile q')) + countChar "?" group <= countChar "?" (fst (compile q')).
Proof.
  intros Hspec Hsel Htail Hw.
  assert (Hc : placeholderChar "?") by (now left).
  assert (Hfr : map (clauseText "?") (Query.Wheres q')
                = map (clauseText "?") (Query.Wheres q) +++ [field ++ " IN " ++ group]).
  { rewrite Hw, map_app. reflexivity. }
  assert (Hcount : countChar "?" (fst (compile q'))
                   = countChar "?" (fst (compile q)) + countChar "?" field
                     + countChar "?" group).
  { assert (Hx : countChar "?" (field ++ " IN " ++ group)
                  = countChar "?" field + countChar "?" group).
    { rewrite !countChar_app. change (countChar "?" " IN ") with 0. lia. }
    rewrite !Hspec. cbn [fst]. rewrite !(sql_count _ _ _ Hc), Hsel, Htail, Hfr.
    rewrite map_app, list_sum_app. cbn [map].
    change (list_sum [?x]) with (x + 0). rewrite Hx. lia. }
  assert (Hargs : snd (compile q') = snd (compile q)).
  { rewrite !Hspec. cbn [snd]. rewrite Hw, boundValues_app. apply app_nil_r. }
  split; [split; [exact Hargs | split; [|exact Hcount]]|].
  - exists (map (clauseText "?") (Query.Wheres q)).
    rewrite !Hspec. cbn [fst]. now rewrite Hsel, Htail, Hfr.
  - rewrite Hcount, Hargs, Hspec. cbn [fst snd]. rewrite (sql_count _ _ _ Hc).
    pose proof (question_lower_bound (Query.Wheres q)). lia.
Qed.

Lemma dollar_splices q q' field group :
  selectPart q' = selectPart q -> tailOf q' = tailOf q ->
  Query.Wheres q' = Query.Wheres q +++ [WhereClause.mk field "IN" (VString group) false] ->
  splicesGroup PostgresDriver.BuildQuery q q' field group /\
  List.length (snd (PostgresDriver.BuildQuery q')) + countChar "?" group
  <= countChar "?" (fst (PostgresDriver.BuildQuery q'))
     + countChar "$" (fst (PostgresDriver.BuildQuery q')).
Proof.
  intros Hsel Htail Hw.
  assert (Hq : placeholderChar "?") by (now left).
  assert (Hd : placeholderChar "$") by (now right).
  assert (Hfr : pgClauses 1 (Query.Wheres q')
                = pgClauses 1 (Query.Wheres q) +++ [field ++ " IN " ++ group]).
  { rewrite Hw, pgClauses_app. reflexivity. }
  assert (Hx : countChar "?" (field ++ " IN " ++ group)
               = countChar "?" field + countChar "?" group).
  { rewrite !countChar_app. change (countChar "?" " IN ") with 0. lia. }
  assert (Hcount : countChar "?" (fst (PostgresDriver.BuildQuery q'))
                   = countChar "?" (fst (PostgresDriver.BuildQuery q))
                     + countChar "?" field + countChar "?" group).
  { rewrite !postgres_BuildQuery_spec. cbn [fst].
    rewrite !(sql_count _ _ _ Hq), Hsel, Htail, Hfr.
    rewrite map_app, list_sum_app. cbn [map].
    change (list_sum [?x]) with (x + 0). rewrite Hx. lia. }
  assert (Hargs : snd (PostgresDriver.BuildQuery q') = snd (PostgresDriver.BuildQuery q)).
  { rewrite !postgres_BuildQuery_spec. cbn [snd]. rewrite Hw, boundValues_app.
    apply app_nil_r. }
  split; [split; [exact Hargs | split; [|exact Hcount]]|].
  - exists (pgClauses 1 (Query.Wheres q)).
    rewrite !postgres_BuildQuery_spec. cbn [fst]. now rewrite Hsel, Htail, Hfr.
  - rewrite Hcount. rewrite !postgres_BuildQuery_spec. cbn [fst snd].
    rewrite (sql_count _ _ _ Hd).
    pose proof (dollar_lower_bound (Query.Wheres q') 1). lia.
Qed.

(** * The claims *)

(** C3. On table users with the default projection and the one filter
    (age, >, 18), not negated, the sqlite compiler returns exactly
    SELECT * FROM users WHERE age > ? with arguments [18], and the postgres
    compiler exactly SELECT * FROM users WHERE age > $1 with arguments [18]. *)
Theorem C3_age_filter_scenario (modelType : string) :
  let qe :=
    QueryExecutor.Where (QueryExecutor.NewQueryExecutor "users" modelType)
      "age" ">" (VInt 18) in
  SQLiteDriver.BuildQuery (QueryExecutor.query qe)
    = ("SELECT * FROM users WHERE age > ?", [VInt 18]) /\
  PostgresDriver.BuildQuery (QueryExecutor.query qe)
    = ("SELECT * FROM users WHERE age > $1", [VInt 18]).
Proof. split; reflexivity. Qed.

(** C6. The where-not variant with field status, operator = and value
    archived compiles to the fragment status NOT = ? with the one bound
    argument archived (status NOT = $1 under postgres); and in every query,
    under every compiler, the fragment of a negated clause whose operator is
    not IN is the field, NOT, the operator and the placeholder, at the
    clause's position in the WHERE conjunction. *)
Theorem C6_negated_clause_rendering :
  (forall table modelType,
      let q :=
        QueryExecutor.query
          (QueryExecutor.WhereNot (QueryExecutor.NewQueryExecutor table modelType)
             "status" "=" (VString "archived")) in
      SQLiteDriver.BuildQuery q
        = ("SELECT * FROM " ++ table ++ " WHERE status NOT = ?", [VString "archived"]) /\
      MySQLDriver.BuildQuery q
        = ("SELECT * FROM " ++ table ++ " WHERE status NOT = ?", [VString "archived"]) /\
      QueryExecutor.buildSelectQueryFromQuery q
        = ("SELECT * FROM " ++ table ++ " WHERE status NOT = ?", [VString "archived"]) /\
      PostgresDriver.BuildQuery q
        = ("SELECT * FROM " ++ table ++ " WHERE status NOT = $1", [VString "archived"])) /\
  (forall q i w,
      nth_error (Query.Wheres q) i = Some w ->
      WhereClause.Not w = true ->
      WhereClause.Operator w <> "IN" ->
      let negated ph :=
        WhereClause.Field w ++ " NOT " ++ WhereClause.Operator w ++ " " ++ ph in
      let sqlOf fragments :=
        strings.Join
          (selectPart q :: ("WHERE " ++ strings.Join fragments " AND ") :: tailOf q) " " in
      (exists fragments,
          fst (SQLiteDriver.BuildQuery q) = sqlOf fragments /\
          nth_error fragments i = Some (negated "?")) /\
      (exists fragments,
          fst (MySQLDriver.BuildQuery q) = sqlOf fragments /\
          nth_error fragments i = Some (negated "?")) /\
      (exists fragments,
          fst (QueryExecutor.buildSelectQueryFromQuery q) = sqlOf fragments /\
          nth_error fragments i = Some (negated "?")) /\
      (exists fragments,
          fst (PostgresDriver.BuildQuery q) = sqlOf fragments /\
          nth_error fragments i =
          Some (negated
                  ("$" ++ fmt.d (1 + Z.of_nat
                     (List.length (boundValues (firstn i (Query.Wheres q))))))))).
Proof.
  split.
  - intros table modelType q. subst q.
    rewrite sqlite_BuildQuery_spec, mysql_BuildQuery_spec, executor_build_spec,
      postgres_BuildQuery_spec.
    cbn. repeat split; reflexivity.
  - intros q i w Hi Hn Hop negated sqlOf.
    assert (Hq : exists x l, Query.Wheres q = x :: l).
    { destruct (Query.Wheres q) as [|x l]; [destruct i; discriminate | eauto]. }
    destruct Hq as (x & l & Hq).
    assert (Hm : forall ph,
               nth_error (map (clauseText ph) (Query.Wheres q)) i = Some (negated ph)).
    { intros ph. rewrite nth_error_map, Hi. simpl.
      now rewrite (negated_clauseText ph w Hn Hop). }
    repeat split.
    + exists (map (clauseText "?") (Query.Wheres q)). split; [|apply Hm].
      rewrite sqlite_BuildQuery_spec, Hq. reflexivity.
    + exists (map (clauseText "?") (Query.Wheres q)). split; [|apply Hm].
      rewrite mysql_BuildQuery_spec, Hq. reflexivity.
    + exists (map (clauseText "?") (Query.Wheres q)). split; [|apply Hm].
      rewrite executor_build_spec, Hq. reflexivity.
    + exists (pgClauses 1 (Query.Wheres q)). split.
      * rewrite postgres_BuildQuery_spec, Hq. reflexivity.
      * rewrite (pgClauses_nth _ _ _ _ Hi).
        now rewrite (negated_clauseText _ w Hn Hop).
Qed.

(** C7. Count compiles a query that projects the row-count aggregate over
    the builder's table and keeps the builder's where-clauses and their bound arguments;
    its text ends with the WHERE part, so it has no ORDER BY, LIMIT or OFFSET
    whatever ordering, limit or offset the builder accumulated.  Exists
    returns true exactly when the number Count returns is greater than 0, and
    returns the error of Count. *)
Theorem C7_count_and_exists (qe : QueryExecutor.t) :
  let q := QueryExecutor.query qe in
  let sql :=
    "SELECT COUNT(*) FROM " ++ Query.Table q ++
    match Query.Wheres q with
    | [] => EmptyString
    | _ => " WHERE " ++ strings.Join (map (clauseText "?") (Query.Wheres q)) " AND "
    end in
  Query.Wheres (QueryExecutor.countQuery qe) = Query.Wheres q /\
  QueryExecutor.buildSelectQueryFromQuery (QueryExecutor.countQuery qe)
    = (sql, snd (QueryExecutor.buildSelectQuery qe)) /\
  (forall db, QueryExecutor.Count (Some db) qe
              = DB.QueryRowScan db sql (snd (QueryExecutor.buildSelectQuery qe))) /\
  (forall GetDB field direction,
      QueryExecutor.Count GetDB (QueryExecutor.OrderBy qe field direction)
      = QueryExecutor.Count GetDB qe) /\
  (forall GetDB n,
      QueryExecutor.Count GetDB (QueryExecutor.Limit qe n) = QueryExecutor.Count GetDB qe) /\
  (forall GetDB n,
      QueryExecutor.Count GetDB (QueryExecutor.Offset qe n) = QueryExecutor.Count GetDB qe) /\
  QueryExecutor.Count None qe = (0%Z, Some "database not initialized") /\
  (forall GetDB,
      QueryExecutor.Exists GetDB qe
      = ((fst (QueryExecutor.Count GetDB qe) >? 0)%Z, snd (QueryExecutor.Count GetDB qe))).
Proof.
  intros q sql.
  assert (Hbuild : QueryExecutor.buildSelectQueryFromQuery (QueryExecutor.countQuery qe)
                   = (sql, snd (QueryExecutor.buildSelectQuery qe))).
  { unfold QueryExecutor.buildSelectQuery. rewrite !executor_build_spec.
    subst sql q. cbn [snd QueryExecutor.countQuery Query.Wheres].
    f_equal. unfold tailOf, orderOf, limitOf, offsetOf, selectPart. cbn.
    destruct (Query.Wheres (QueryExecutor.query qe)) as [|w ws]; cbn.
    - now rewrite str_app_nil_r.
    - reflexivity. }
  split; [reflexivity|]. split; [exact Hbuild|].
  split. { intros db. unfold QueryExecutor.Count. now rewrite Hbuild. }
  split. { intros [db|] field direction; reflexivity. }
  split. { intros [db|] n; reflexivity. }
  split. { intros [db|] n; reflexivity. }
  split; [reflexivity|].
  intros GetDB. unfold QueryExecutor.Exists.
  now destruct (QueryExecutor.Count GetDB qe).
Qed.

(** C1, as amended.  For every Query with no where-clause whose operator is
    IN: each of the three compilers returns the clause values, in clause
    order, as its arguments, and the i-th fragment of the WHERE conjunction
    carries the i-th placeholder, a question mark for mysql and sqlite and
    the dollar sign with the number i for postgres.  When, in addition, no
    table name, projected field, clause field, operator, ordering field or
    direction of the Query contains a question mark, the mysql and sqlite
    texts have as many question marks as there are arguments; when none
    contains a dollar sign, the placeholders of the postgres text, read left
    to right, are numbered 1 to the number of arguments. *)
Theorem C1_placeholders_match_arguments (q : Query.t) :
  noIN q ->
  let wheres := Query.Wheres q in
  let sqlOf fragments :=
    strings.Join (selectPart q :: whereOf fragments +++ tailOf q) " " in
  let fragmentsWith (placeholder : nat -> string) fragments :=
    List.length fragments = List.length wheres /\
    forall i w, nth_error wheres i = Some w ->
      nth_error fragments i =
      Some (WhereClause.Field w ++ " " ++ opText w ++ " " ++ placeholder i) in
  (snd (SQLiteDriver.BuildQuery q) = map WhereClause.Value wheres /\
   snd (MySQLDriver.BuildQuery q) = map WhereClause.Value wheres /\
   snd (PostgresDriver.BuildQuery q) = map WhereClause.Value wheres) /\
  ((exists fragments,
       fst (SQLiteDriver.BuildQuery q) = sqlOf fragments /\
       fragmentsWith (fun _ => "?") fragments) /\
   (exists fragments,
       fst (MySQLDriver.BuildQuery q) = sqlOf fragments /\
       fragmentsWith (fun _ => "?") fragments) /\
   (exists fragments,
       fst (PostgresDriver.BuildQuery q) = sqlOf fragments /\
       fragmentsWith (fun i => "$" ++ fmt.d (Z.of_nat (S i))) fragments)) /\
  (freeOf "?" q ->
   countChar "?" (fst (SQLiteDriver.BuildQuery q))
     = List.length (snd (SQLiteDriver.BuildQuery q)) /\
   countChar "?" (fst (MySQLDriver.BuildQuery q))
     = List.length (snd (MySQLDriver.BuildQuery q))) /\
  (freeOf "$" q ->
   pgNumbers (fst (PostgresDriver.BuildQuery q))
     = map Some (upTo (List.length (snd (PostgresDriver.BuildQuery q))))).
Proof.
  intros Hin wheres sqlOf fragmentsWith.
  rewrite sqlite_BuildQuery_spec, mysql_BuildQuery_spec, postgres_BuildQuery_spec.
  cbn [fst snd]. subst wheres. set (wheres := Query.Wheres q) in *.
  assert (Hargs : boundValues wheres = map WhereClause.Value wheres)
    by (apply boundValues_noIN, Hin).
  assert (Hq : exists fragments,
             strings.Join (selectPart q :: whereOf (map (clauseText "?") wheres)
                             +++ tailOf q) " " = sqlOf fragments /\
             fragmentsWith (fun _ => "?") fragments).
  { exists (map (clauseText "?") wheres). split; [reflexivity|]. split.
    - apply length_map.
    - intros i w Hi. rewrite nth_error_map, Hi. simpl.
      now rewrite (clauseText_bound _ _ (Hin w (nth_error_In _ _ Hi))). }
  split; [now rewrite Hargs|].
  split; [split; [exact Hq | split; [exact Hq|]]|].
  { exists (pgClauses 1 wheres). split; [reflexivity|]. split.
    - apply pgClauses_length.
    - intros i w Hi. rewrite (pgClauses_nth _ _ _ _ Hi).
      rewrite (clauseText_bound _ _ (Hin w (nth_error_In _ _ Hi))).
      rewrite boundValues_firstn_noIN.
      + replace (1 + Z.of_nat i)%Z with (Z.of_nat (S i)) by lia. reflexivity.
      + exact Hin.
      + apply Nat.lt_le_incl. apply nth_error_Some. now rewrite Hi. }
  split.
  - intros Hfree.
    assert (Hc : placeholderChar "?") by (now left).
    rewrite (sql_count _ _ _ Hc), (selectPart_free _ _ Hc Hfree).
    pose proof (question_fragments q Hin Hfree) as Hqf. fold wheres in Hqf.
    rewrite !Hqf.
    rewrite (list_sum_zero (map (countChar "?") (tailOf q))).
    + rewrite Hargs, length_map. fold wheres. split; lia.
    + intros n Hn. apply in_map_iff in Hn as (s & <- & Hs).
      now apply (tailOf_free _ _ Hc Hfree).
  - intros Hfree.
    assert (Hc : placeholderChar "$") by (now right).
    unfold pgNumbers.
    rewrite (pgLabels_Join " " EmptyString) by reflexivity.
    rewrite map_cons, map_app, concat_cons, concat_app.
    rewrite (pgLabels_nil _ (selectPart_free _ _ Hc Hfree)).
    rewrite (concat_map_nil pgLabels (tailOf q)), app_nil_r
      by (intros s Hs; apply pgLabels_nil; now apply (tailOf_free _ _ Hc Hfree)).
    simpl app.
    assert (Hlab : concat (map pgLabels (whereOf (pgClauses 1 wheres)))
                   = map fmt.d (upTo (List.length wheres))).
    { rewrite <- map_fmt_upTo, <- (dollar_fragments wheres 1).
      - destruct (pgClauses 1 wheres) as [|x l]; [reflexivity|].
        rewrite whereOf_cons. cbn [map concat]. rewrite app_nil_r.
        rewrite (pgLabels_free "WHERE ") by reflexivity.
        now rewrite (pgLabels_Join " " "AND ") by reflexivity.
      - lia.
      - intros w Hw. split; [apply Hin, Hw|]. apply (where_free_fields _ _ _ Hfree Hw). }
    rewrite Hlab, labelNumber_upTo, Hargs, length_map. reflexivity.
Qed.

(** C10, as amended.  WhereIn(field, values) drops the values: the stored
    clause has operator IN and, as its value, the text of a parenthesised
    group of as many question marks as there are values, separated by commas.
    Each compiler splices that group into the SQL text as the fragment field
    IN group and binds nothing for it, so the argument list gains no entry
    while the text gains the question marks of the group.  Hence the
    placeholder characters of an IN query exceed its bound arguments by at
    least the number of values: there are more of them when the value list is
    not empty, and an empty list adds none. *)
Theorem C10_where_in_binds_nothing
    (qe : QueryExecutor.t) (field : string) (values : list value) :
  let n := List.length values in
  let group := "(" ++ strings.Join (repeat "?" n) "," ++ ")" in
  let q := QueryExecutor.query qe in
  let q' := QueryExecutor.query (QueryExecutor.WhereIn qe field values) in
  (forall values',
      List.length values' = n ->
      QueryExecutor.WhereIn qe field values' = QueryExecutor.WhereIn qe field values) /\
  Query.Wheres q'
    = Query.Wheres q +++ [WhereClause.mk field "IN" (VString group) false] /\
  countChar "?" group = n /\
  (splicesGroup SQLiteDriver.BuildQuery q q' field group /\
   splicesGroup MySQLDriver.BuildQuery q q' field group /\
   splicesGroup PostgresDriver.BuildQuery q q' field group /\
   splicesGroup QueryExecutor.buildSelectQueryFromQuery q q' field group) /\
  (List.length (snd (SQLiteDriver.BuildQuery q')) + n
     <= countChar "?" (fst (SQLiteDriver.BuildQuery q')) /\
   List.length (snd (MySQLDriver.BuildQuery q')) + n
     <= countChar "?" (fst (MySQLDriver.BuildQuery q')) /\
   List.length (snd (PostgresDriver.BuildQuery q')) + n
     <= countChar "?" (fst (PostgresDriver.BuildQuery q'))
        + countChar "$" (fst (PostgresDriver.BuildQuery q')) /\
   List.length (snd (QueryExecutor.buildSelectQueryFromQuery q')) + n
     <= countChar "?" (fst (QueryExecutor.buildSelectQueryFromQuery q'))).
Proof.
  intros n group q q'.
  assert (Hw : Query.Wheres q'
               = Query.Wheres q +++ [WhereClause.mk field "IN" (VString group) false]).
  { subst q' q group n. unfold QueryExecutor.WhereIn. cbn.
    now rewrite placeholdersLoop_repeat. }
  assert (Hg : countChar "?" group = n) by apply countChar_group.
  assert (Hsel : selectPart q' = selectPart q) by reflexivity.
  assert (Htail : tailOf q' = tailOf q) by reflexivity.
  destruct (question_splices _ q q' field group sqlite_BuildQuery_spec Hsel Htail Hw)
    as [S1 B1].
  destruct (question_splices _ q q' field group mysql_BuildQuery_spec Hsel Htail Hw)
    as [S2 B2].
  destruct (question_splices _ q q' field group executor_build_spec Hsel Htail Hw)
    as [S4 B4].
  destruct (dollar_splices q q' field group Hsel Htail Hw) as [S3 B3].
  rewrite Hg in B1, B2, B3, B4.
  split.
  { intros values' Hlen. unfold QueryExecutor.WhereIn.
    now rewrite !placeholdersLoop_repeat, Hlen. }
  split; [exact Hw|]. split; [exact Hg|].
  split; [exact (conj S1 (conj S2 (conj S3 S4)))|].
  exact (conj B1 (conj B2 (conj B3 B4))).
Qed.

(** C10 fails as stated for an empty value list: the group is a pair of
    empty parentheses, and the text has no more placeholder characters than
    there are arguments. *)
Lemma C10_counterexample_empty_values :
  let qe := QueryExecutor.WhereIn (QueryExecutor.NewQueryExecutor "users" "User") "id" [] in
  SQLiteDriver.BuildQuery (QueryExecutor.query qe)
    = ("SELECT * FROM users WHERE id IN ()", []) /\
  ~ (List.length (snd (SQLiteDriver.BuildQuery (QueryExecutor.query qe)))
     < countChar "?" (fst (SQLiteDriver.BuildQuery (QueryExecutor.query qe)))).
Proof. split; [reflexivity | cbn; lia]. Qed.

(** C1 fails as stated when a string of the Query carries a placeholder of
    its own: an operator is copied into the text as it is. *)
Lemma C1_counterexample_placeholder_in_operator :
  let q :=
    Query.mk "users" ["*"]
      [WhereClause.mk "age" "> ? AND score >" (VInt 18) false] [] None None [] in
  let q' :=
    Query.mk "users" ["*"]
      [WhereClause.mk "age" "> $7 AND score >" (VInt 18) false] [] None None [] in
  (noIN q /\
   SQLiteDriver.BuildQuery q
     = ("SELECT * FROM users WHERE age > ? AND score > ?", [VInt 18]) /\
   countChar "?" (fst (SQLiteDriver.BuildQuery q))
     <> List.length (snd (SQLiteDriver.BuildQuery q))) /\
  (noIN q' /\
   PostgresDriver.BuildQuery q'
     = ("SELECT * FROM users WHERE age > $7 AND score > $1", [VInt 18]) /\
   pgNumbers (fst (PostgresDriver.BuildQuery q')) = [Some 7%Z; Some 1%Z]).
Proof.
  split; (split; [intros w [<- | []]; reflexivity|]);
    (split; [reflexivity|]); [cbn; lia | reflexivity].
Qed.

(** C1 at a query with two filters, one of them negated, an ordering, a limit
    and an offset. *)
Lemma C1_witness_two_filters :
  let q :=
    Query.mk "users" ["id"; "name"]
      [WhereClause.mk "age" ">" (VInt 18) false;
       WhereClause.mk "status" "=" (VString "archived") true]
      [OrderClause.mk "name" "DESC"] (Some 10%Z) (Some 20%Z) [] in
  noIN q /\ freeOf "?" q /\ freeOf "$" q /\
  snd (PostgresDriver.BuildQuery q) = [VInt 18; VString "archived"] /\
  countChar "?" (fst (SQLiteDriver.BuildQuery q)) = 2 /\
  pgNumbers (fst (PostgresDriver.BuildQuery q)) = [Some 1%Z; Some 2%Z].
Proof.
  intros q.
  assert (Hin : noIN q).
  { intros w [<- | [<- | []]]; reflexivity. }
  assert (Hq : forall c, placeholderChar c -> freeOf c q).
  { intros c Hc s Hs. simpl in Hs.
    repeat (destruct Hs as [<- | Hs]; [destruct Hc as [-> | ->]; reflexivity|]).
    contradiction. }
  destruct (C1_placeholders_match_arguments q Hin) as ((_ & _ & Ha) & _ & Hqm & Hd).
  split; [exact Hin|]. split; [exact (Hq _ (or_introl eq_refl))|].
  split; [exact (Hq _ (or_intror eq_refl))|].
  split; [exact Ha|].
  split.
  - exact (proj1 (Hqm (Hq _ (or_introl eq_refl)))).
  - exact (Hd (Hq _ (or_intror eq_refl))).
Defined.

(** ** Suffixes *)

Lemma substring_0_app p s : substring 0 (String.length p) (p ++ s) = p.
Proof.
  induction p as [|c p IH]; simpl.
  - now destruct s.
  - now rewrite IH.
Qed.

Lemma substring_skip_app p s :
  substring (String.length p) (String.length s) (p ++ s) = s.
Proof.
  induction p as [|c p IH]; simpl; [|exact IH].
  induction s as [|c s IH]; simpl; [reflexivity | now rewrite IH].
Qed.

Lemma substring_split s : forall k,
  k <= String.length s ->
  s = substring 0 k s ++ substring k (String.length s - k) s.
Proof.
  induction s as [|c s IH]; intros k Hk; simpl in *.
  - destruct k; [reflexivity | lia].
  - destruct k as [|k]; simpl.
    + f_equal. clear. induction s as [|d s IH]; simpl; [reflexivity | now rewrite <- IH].
    + f_equal. apply IH. lia.
Qed.

Lemma HasSuffix_app p suffix : strings.HasSuffix (p ++ suffix) suffix = true.
Proof.
  unfold strings.HasSuffix. rewrite str_length_app.
  replace (String.length p + String.length suffix - String.length suffix)
    with (String.length p) by lia.
  rewrite substring_skip_app, String.eqb_refl, andb_true_r.
  apply Nat.leb_le. lia.
Qed.

Lemma HasSuffix_endsWith s suffix :
  strings.HasSuffix s suffix = true <-> endsWith s suffix.
Proof.
  split.
  - unfold strings.HasSuffix. intros H. apply andb_true_iff in H as [Hlen Heq].
    apply Nat.leb_le in Hlen. apply String.eqb_eq in Heq.
    exists (substring 0 (String.length s - String.length suffix) s).
    pose proof (substring_split s (String.length s - String.length suffix)) as Hs.
    replace (String.length s - (String.length s - String.length suffix))
      with (String.length suffix) in Hs by lia.
    rewrite Heq in Hs. apply Hs. lia.
  - intros [p ->]. apply HasSuffix_app.
Qed.

Lemma TrimSuffix_app p suffix : strings.TrimSuffix (p ++ suffix) suffix = p.
Proof.
  unfold strings.TrimSuffix. rewrite HasSuffix_app, str_length_app.
  replace (String.length p + String.length suffix - String.length suffix)
    with (String.length p) by lia.
  apply substring_0_app.
Qed.

(** C2, as amended.  The type mapper is total; a trailing question mark is
    stripped before the lookup; the rows are Int and int, String and string,
    Boolean and bool, Float and float64, DateTime and time.Time as the claim
    gives them, and the BIGINT, BIGINT, INTEGER row belongs to int64, in
    lower case.  Every other type, Int64 among them, maps to TEXT in every
    dialect. *)
Theorem C2_type_mapper_table (goType : string) :
  (GetSQLType goType "postgres", GetSQLType goType "mysql", GetSQLType goType "sqlite")
    = lookupType (strings.TrimSuffix goType "?") /\
  strings.TrimSuffix (goType ++ "?") "?" = goType /\
  (strings.HasSuffix goType "?" = false -> strings.TrimSuffix goType "?" = goType) /\
  (~ In (strings.TrimSuffix goType "?") (map fst typeTable) ->
   GetSQLType goType "postgres" = "TEXT" /\ GetSQLType goType "mysql" = "TEXT"
   /\ GetSQLType goType "sqlite" = "TEXT") /\
  lookupType "Int64" = ("TEXT", "TEXT", "TEXT") /\
  lookupType "int64" = ("BIGINT", "BIGINT", "INTEGER").
Proof.
  assert (Hrow : forall base,
             (getPostgresType base, getMySQLType base, getSQLiteType base)
             = lookupType base).
  { intros base.
    unfold getPostgresType, getMySQLType, getSQLiteType, lookupType, oneOf, typeTable.
    cbn [existsb find fst snd].
    repeat match goal with
           | |- context [String.eqb base ?x] =>
               let E := fresh "E" in
               destruct (String.eqb base x) eqn:E;
               [apply String.eqb_eq in E; subst base; reflexivity|]
           end.
    reflexivity. }
  split; [|split; [|split; [|split; [|split]]]].
  - unfold GetSQLType. cbn [String.eqb Ascii.eqb Bool.eqb]. apply Hrow.
  - apply TrimSuffix_app.
  - unfold strings.TrimSuffix. now intros ->.
  - intros Hnot.
    assert (Hnone : lookupType (strings.TrimSuffix goType "?") = ("TEXT", "TEXT", "TEXT")).
    { unfold lookupType.
      destruct (find _ typeTable) as [row|] eqn:E; [|reflexivity].
      apply find_some in E as [Hin Heq]. apply String.eqb_eq in Heq.
      exfalso. apply Hnot. rewrite Heq. now apply in_map. }
    rewrite <- Hrow in Hnone. unfold GetSQLType. cbn [String.eqb Ascii.eqb Bool.eqb].
    now injection Hnone as -> -> ->.
  - reflexivity.
  - reflexivity.
Qed.

(** C2 fails as stated on the Int64 row: the type written Int64 is not a
    label of any dialect's switch and falls to the default. *)
Lemma C2_counterexample_Int64 :
  GetSQLType "Int64" "postgres" = "TEXT" /\ GetSQLType "Int64" "postgres" <> "BIGINT" /\
  GetSQLType "Int64" "mysql" = "TEXT" /\ GetSQLType "Int64" "mysql" <> "BIGINT" /\
  GetSQLType "Int64" "sqlite" = "TEXT" /\ GetSQLType "Int64" "sqlite" <> "INTEGER".
Proof. repeat split; try reflexivity; discriminate. Qed.

(** ** The DDL generators *)

Lemma postgres_columnLoop_spec fields : forall columns,
  PostgresDriver.columnLoop fields columns
  = columns +++ map PostgresDriver.buildColumnDefinition fields.
Proof.
  induction fields as [|f fields IH]; intros columns; simpl.
  - now rewrite app_nil_r.
  - rewrite IH. unfold slice.append. now rewrite <- app_assoc.
Qed.

Lemma mysql_columnLoop_spec fields : forall columns,
  MySQLDriver.columnLoop fields columns
  = columns +++ map MySQLDriver.buildColumnDefinition fields.
Proof.
  induction fields as [|f fields IH]; intros columns; simpl.
  - now rewrite app_nil_r.
  - rewrite IH. unfold slice.append. now rewrite <- app_assoc.
Qed.

Lemma sqlite_columnLoop_spec fields : forall columns,
  SQLiteDriver.columnLoop fields columns
  = columns +++ map SQLiteDriver.buildColumnDefinition fields.
Proof.
  induction fields as [|f fields IH]; intros columns; simpl.
  - now rewrite app_nil_r.
  - rewrite IH. unfold slice.append. now rewrite <- app_assoc.
Qed.

Ltac column_cases f b H :=
  destruct f as [name ty opt uni pri auto def dbt];
  cbn [FieldSchema.Default] in H; subst def;
  cbn [Parser.setDefault FieldSchema.Name FieldSchema.Type_ FieldSchema.Optional
       FieldSchema.Unique FieldSchema.Primary FieldSchema.AutoGen
       FieldSchema.Default FieldSchema.DatabaseType];
  match goal with
  | |- context [GetSQLType ty ?d] => generalize (GetSQLType ty d); intros sqlType
  end;
  destruct opt, uni, pri, auto, b;
  cbn [andb negb slice.append app strings.Join String.concat fmt.t fmt.v];
  rewrite ?str_app_assoc; reflexivity.

(** C5, as amended.  For every field whose default value is a boolean, each
    dialect's column definition is the definition of the same field without
    a default followed by the DEFAULT clause with the dialect's literal: true
    or false, in lower case, under postgres and mysql, and 1 or 0 under
    sqlite; CreateTable joins the column definitions of the fields, in order,
    inside the statement. *)
Theorem C5_boolean_default_literal (f : FieldSchema.t) (b : bool) :
  FieldSchema.Default f = VBool b ->
  let bare := Parser.setDefault f VNil in
  (PostgresDriver.buildColumnDefinition f
     = PostgresDriver.buildColumnDefinition bare
         ++ " DEFAULT " ++ (if b then "true" else "false") /\
   MySQLDriver.buildColumnDefinition f
     = MySQLDriver.buildColumnDefinition bare
         ++ " DEFAULT " ++ (if b then "true" else "false") /\
   SQLiteDriver.buildColumnDefinition f
     = SQLiteDriver.buildColumnDefinition bare
         ++ " DEFAULT " ++ (if b then "1" else "0")) /\
  (forall m,
      PostgresDriver.CreateTable m
        = "CREATE TABLE IF NOT EXISTS " ++ ModelSchema.TableName m ++ " (" ++ nl ++ "  "
            ++ strings.Join (map PostgresDriver.buildColumnDefinition (ModelSchema.Fields m))
                 ("," ++ nl ++ "  ")
            ++ nl ++ ")" /\
      MySQLDriver.CreateTable m
        = "CREATE TABLE IF NOT EXISTS " ++ ModelSchema.TableName m ++ " (" ++ nl ++ "  "
            ++ strings.Join (map MySQLDriver.buildColumnDefinition (ModelSchema.Fields m))
                 ("," ++ nl ++ "  ")
            ++ nl ++ ") ENGINE=InnoDB DEFAULT CHARSET=utf8mb4" /\
      SQLiteDriver.CreateTable m
        = "CREATE TABLE IF NOT EXISTS " ++ ModelSchema.TableName m ++ " (" ++ nl ++ "  "
            ++ strings.Join (map SQLiteDriver.buildColumnDefinition (ModelSchema.Fields m))
                 ("," ++ nl ++ "  ")
            ++ nl ++ ")").
Proof.
  intros H bare. subst bare. split; [split; [|split]|].
  - unfold PostgresDriver.buildColumnDefinition. column_cases f b H.
  - unfold MySQLDriver.buildColumnDefinition. column_cases f b H.
  - unfold SQLiteDriver.buildColumnDefinition. column_cases f b H.
  - intros m.
    unfold PostgresDriver.CreateTable, MySQLDriver.CreateTable, SQLiteDriver.CreateTable.
    rewrite postgres_columnLoop_spec, mysql_columnLoop_spec, sqlite_columnLoop_spec.
    repeat split; reflexivity.
Qed.

(** C5 fails as stated under postgres and mysql: the boolean default is
    printed by the verb for booleans, which writes it in lower case. *)
Lemma C5_counterexample_lowercase :
  let f := FieldSchema.mk "active" "Boolean" false false false false (VBool true) EmptyString in
  let m := ModelSchema.mk "User" "users" [f] [] in
  (PostgresDriver.CreateTable m
     = "CREATE TABLE IF NOT EXISTS users (" ++ nl
         ++ "  active BOOLEAN NOT NULL DEFAULT true" ++ nl ++ ")" /\
   strings.Contains (PostgresDriver.CreateTable m) "DEFAULT TRUE" = false) /\
  (MySQLDriver.CreateTable m
     = "CREATE TABLE IF NOT EXISTS users (" ++ nl
         ++ "  active BOOLEAN NOT NULL DEFAULT true" ++ nl
         ++ ") ENGINE=InnoDB DEFAULT CHARSET=utf8mb4" /\
   strings.Contains (MySQLDriver.CreateTable m) "DEFAULT TRUE" = false).
Proof. repeat split; reflexivity. Qed.

(** C5 at a unique, optional boolean field whose default is false. *)
Lemma C5_witness_false_default :
  let f := FieldSchema.mk "archived" "Boolean" true true false false (VBool false) EmptyString in
  FieldSchema.Default f = VBool false /\
  PostgresDriver.buildColumnDefinition f = "archived BOOLEAN UNIQUE DEFAULT false" /\
  MySQLDriver.buildColumnDefinition f = "archived BOOLEAN UNIQUE DEFAULT false" /\
  SQLiteDriver.buildColumnDefinition f = "archived INTEGER UNIQUE DEFAULT 0".
Proof.
  intros f.
  destruct (C5_boolean_default_literal f false eq_refl) as ((Hp & Hm & Hs) & _).
  split; [reflexivity|]. split; [exact Hp|]. split; [exact Hm | exact Hs].
Defined.

(** ** Table names *)

Lemma HasSuffix_not_endsWith s suffix :
  ~ endsWith s suffix -> strings.HasSuffix s suffix = false.
Proof.
  intros H. destruct (strings.HasSuffix s suffix) eqn:E; [|reflexivity].
  exfalso. apply H. now apply HasSuffix_endsWith.
Qed.

Lemma parseField_keeps_names line m :
  ModelSchema.Name (fst (Parser.parseField line m)) = ModelSchema.Name m /\
  ModelSchema.TableName (fst (Parser.parseField line m)) = ModelSchema.TableName m.
Proof.
  unfold Parser.parseField, Parser.parseRelation.
  destruct (strings.Fields line) as [|a [|b rest]]; try (split; reflexivity).
  destruct (strings.HasSuffix b "[]"); split; reflexivity.
Qed.

Lemma appendModel_derived p m :
  Forall derivedTableName (Schema.Models (Parser.schema p)) -> derivedTableName m ->
  Forall derivedTableName (Schema.Models (Parser.schema (Parser.appendModel p m))).
Proof.
  intros Hp Hm. unfold Parser.appendModel, slice.append. cbn.
  apply Forall_app. split; [exact Hp | now constructor].
Qed.

(** The loop keeps the table name of every model it has committed or is
    reading. *)
Lemma scanLoop_derived lines : forall p cur inModel p' cur' err,
  Forall derivedTableName (Schema.Models (Parser.schema p)) ->
  (forall m, cur = Some m -> derivedTableName m) ->
  Parser.scanLoop lines p cur inModel = (p', cur', err) ->
  Forall derivedTableName (Schema.Models (Parser.schema p')) /\
  (forall m, cur' = Some m -> derivedTableName m).
Proof.
  induction lines as [|text lines IH]; intros p cur inModel p' cur' err Hp Hcur Hscan.
  - cbn in Hscan. injection Hscan as <- <- <-. now split.
  - cbn [Parser.scanLoop] in Hscan.
    set (line := strings.TrimSpace text) in *.
    destruct ((line =? EmptyString) || strings.HasPrefix line "//");
      [apply (IH _ _ _ _ _ _ Hp Hcur Hscan)|].
    destruct (strings.HasPrefix line "model ").
    { refine (IH _ _ _ _ _ _ _ _ Hscan).
      - destruct cur as [m|]; [apply appendModel_derived; auto | exact Hp].
      - intros m [= <-]. reflexivity. }
    destruct ((line =? "}") && inModel).
    { destruct cur as [m|].
      - refine (IH _ _ _ _ _ _ _ _ Hscan); [apply appendModel_derived; auto|].
        intros m' [=].
      - apply (IH _ _ _ _ _ _ Hp Hcur Hscan). }
    destruct inModel; [|apply (IH _ _ _ _ _ _ Hp Hcur Hscan)].
    destruct cur as [m|]; [|apply (IH _ _ _ _ _ _ Hp Hcur Hscan)].
    pose proof (parseField_keeps_names line m) as [Hn Ht].
    destruct (Parser.parseField line m) as [m' [e|]]; cbn [fst] in *.
    + injection Hscan as <- <- <-. now split.
    + refine (IH _ _ _ _ _ _ Hp _ Hscan). intros m'' [= <-].
      unfold derivedTableName. rewrite Hn, Ht. now apply Hcur.
Qed.

(** C9. The table name of a model is the snake_case form of its name made
    plural: a final y is replaced by ies; otherwise a final s, x, z, ch or sh
    gets es; otherwise s is appended.  User gives users and Category gives
    categories; and every model of every Schema the parser returns has the
    table name derived in this way from its name. *)
Theorem C9_table_name_pluralization (modelName : string) :
  let snake := ToSnakeCase modelName in
  (forall p, snake = p ++ "y" -> GetTableName modelName = p ++ "ies") /\
  (~ endsWith snake "y" ->
   endsWith snake "s" \/ endsWith snake "x" \/ endsWith snake "z"
   \/ endsWith snake "ch" \/ endsWith snake "sh" ->
   GetTableName modelName = snake ++ "es") /\
  (~ endsWith snake "y" ->
   ~ endsWith snake "s" -> ~ endsWith snake "x" -> ~ endsWith snake "z" ->
   ~ endsWith snake "ch" -> ~ endsWith snake "sh" ->
   GetTableName modelName = snake ++ "s") /\
  (GetTableName "User" = "users" /\ GetTableName "Category" = "categories"
   /\ GetTableName "BlogPost" = "blog_posts" /\ GetTableName "Box" = "boxes") /\
  snd (Parser.ParseFile Parser.NewParser
         (File.Lines ["model User {"; "}"; "model Category {"; "}"] None))
  = (Some (Schema.mk [ModelSchema.mk "User" "users" [] [];
                      ModelSchema.mk "Category" "categories" [] []]), None) /\
  (forall file schema err,
      snd (Parser.ParseFile Parser.NewParser file) = (Some schema, err) ->
      Forall derivedTableName (Schema.Models schema)).
Proof.
  intros snake. unfold GetTableName. fold snake.
  split; [|split; [|split; [|split; [|split]]]].
  - intros p Hp. unfold ToPlural. rewrite Hp, HasSuffix_app, str_length_app.
    replace (String.length p + String.length "y" - 1) with (String.length p)
      by (simpl; lia).
    now rewrite substring_0_app.
  - intros Hy Hsome. unfold ToPlural. rewrite (HasSuffix_not_endsWith _ _ Hy).
    destruct Hsome as [H | [H | [H | [H | H]]]];
      apply HasSuffix_endsWith in H; rewrite H, ?orb_true_r; reflexivity.
  - intros Hy Hs Hx Hz Hch Hsh. unfold ToPlural.
    now rewrite !HasSuffix_not_endsWith.
  - repeat split; reflexivity.
  - reflexivity.
  - intros [e | lines scanErr] schema err; cbn [Parser.ParseFile snd]; [discriminate|].
    destruct (Parser.scanLoop lines Parser.NewParser None false) as [[p' cur'] e] eqn:Hscan.
    apply scanLoop_derived in Hscan as [Hp' Hcur']; [|constructor|discriminate].
    destruct e as [e|]; cbn [snd]; [discriminate|].
    intros [= <- _]. destruct cur' as [m|]; [|exact Hp'].
    apply appendModel_derived; auto.
Qed.

(** ** The auto-update marker *)

Ltac now_default_cases f :=
  destruct f as [name ty opt uni pri auto def dbt];
  cbn [Parser.attributeLoop Parser.setDefault Parser.setType String.eqb Ascii.eqb
       Bool.eqb FieldSchema.Name FieldSchema.Type_ FieldSchema.Optional
       FieldSchema.Unique FieldSchema.Primary FieldSchema.AutoGen
       FieldSchema.Default FieldSchema.DatabaseType];
  match goal with
  | |- context [GetSQLType ?t ?d] => generalize (GetSQLType t d); intros sqlType
  end;
  destruct opt, uni, pri, auto;
  cbn [andb negb slice.append app strings.Join String.concat fmt.t fmt.v];
  rewrite ?str_app_assoc; reflexivity.

(** C4, on the code.  The annotation updatedAt forces the type DateTime but
    stores the text now() as the default, not the sentinel CURRENT_TIMESTAMP
    that the default-value annotation produces for now() and that the
    drivers test for.  So the column of every dialect ends with the quoted
    literal DEFAULT 'now()' and not with DEFAULT CURRENT_TIMESTAMP. *)
Theorem C4_updatedAt_stores_now_text (field : FieldSchema.t) (attrValue : string) :
  let f := Parser.attributeLoop [("updatedAt", attrValue)] field in
  let bare := Parser.setDefault f VNil in
  FieldSchema.Type_ f = "DateTime" /\
  FieldSchema.Default f = VString "now()" /\
  FieldSchema.Default f <> VString "CURRENT_TIMESTAMP" /\
  Parser.parseDefaultValue "now()" = VString "CURRENT_TIMESTAMP" /\
  (PostgresDriver.buildColumnDefinition f
     = PostgresDriver.buildColumnDefinition bare ++ " DEFAULT 'now()'" /\
   MySQLDriver.buildColumnDefinition f
     = MySQLDriver.buildColumnDefinition bare ++ " DEFAULT 'now()'" /\
   SQLiteDriver.buildColumnDefinition f
     = SQLiteDriver.buildColumnDefinition bare ++ " DEFAULT 'now()'") /\
  (let file := File.Lines ["model Post {"; "  updatedAt DateTime @updatedAt"; "}"] None in
   exists model,
     snd (Parser.ParseFile Parser.NewParser file) = (Some (Schema.mk [model]), None) /\
     PostgresDriver.CreateTable model
       = "CREATE TABLE IF NOT EXISTS posts (" ++ nl
           ++ "  updatedAt TIMESTAMP NOT NULL DEFAULT 'now()'" ++ nl ++ ")" /\
     MySQLDriver.CreateTable model
       = "CREATE TABLE IF NOT EXISTS posts (" ++ nl
           ++ "  updatedAt TIMESTAMP NOT NULL DEFAULT 'now()'" ++ nl
           ++ ") ENGINE=InnoDB DEFAULT CHARSET=utf8mb4" /\
     SQLiteDriver.CreateTable model
       = "CREATE TABLE IF NOT EXISTS posts (" ++ nl
           ++ "  updatedAt DATETIME NOT NULL DEFAULT 'now()'" ++ nl ++ ")" /\
     strings.Contains (PostgresDriver.CreateTable model) "DEFAULT CURRENT_TIMESTAMP" = false /\
     strings.Contains (MySQLDriver.CreateTable model) "DEFAULT CURRENT_TIMESTAMP" = false /\
     strings.Contains (SQLiteDriver.CreateTable model) "DEFAULT CURRENT_TIMESTAMP" = false).
Proof.
  intros f bare. subst bare f.
  split; [reflexivity|]. split; [reflexivity|]. split; [discriminate|].
  split; [reflexivity|]. split; [split; [|split]|].
  - unfold PostgresDriver.buildColumnDefinition. now_default_cases field.
  - unfold MySQLDriver.buildColumnDefinition. now_default_cases field.
  - unfold SQLiteDriver.buildColumnDefinition. now_default_cases field.
  - intros file. eexists. split; [reflexivity|]. repeat split; reflexivity.
Qed.

(** ** The scanning loop of the parser *)






(** * Further properties of the code *)

(** ** The four compilers side by side *)

Lemma boundValues_nil_all_IN ws :
  boundValues ws = [] -> forall w, In w ws -> isIN w = true.
Proof.
  unfold boundValues. induction ws as [|x ws IH]; intros H w Hw; [contradiction|].
  simpl in H. destruct (isIN x) eqn:E; simpl in H; [|discriminate].
  destruct Hw as [<- | Hw]; [exact E | now apply IH].
Qed.

Lemma pgClauses_all_IN ws : forall k,
  (forall w, In w ws -> isIN w = true) -> pgClauses k ws = map (clauseText "?") ws.
Proof.
  induction ws as [|w ws IH]; intros k H; [reflexivity|].
  simpl. rewrite (H w (or_introl eq_refl)).
  rewrite !(clauseText_IN _ _ (H w (or_introl eq_refl))).
  f_equal. apply IH. intros w' Hw'. apply H. now right.
Qed.

Lemma dollar_count_fragments ws : forall k,
  list_sum (map (countChar "$") (pgClauses k ws))
  = list_sum (map (countChar "$") (map (clauseText "?") ws))
    + List.length (boundValues ws).
Proof.
  induction ws as [|w ws IH]; intros k; [reflexivity|].
  unfold boundValues in *. simpl pgClauses. simpl filter. rewrite !map_cons.
  change (list_sum (?x :: ?l)) with (x + list_sum l).
  rewrite IH. unfold clauseText. destruct (isIN w); simpl negb; cbv iota.
  - lia.
  - rewrite !countChar_app. change ("$" ++ fmt.d k) with (String "$" (fmt.d k)).
    rewrite countChar_head, (countChar_fmt_d "$" k) by reflexivity.
    simpl map. simpl List.length. change (countChar "$" "?") with 0. lia.
Qed.

Lemma question_count_fragments ws : forall k,
  list_sum (map (countChar "?") (map (clauseText "?") ws))
  = list_sum (map (countChar "?") (pgClauses k ws))
    + List.length (boundValues ws).
Proof.
  induction ws as [|w ws IH]; intros k; [reflexivity|].
  unfold boundValues in *. simpl pgClauses. simpl filter. rewrite !map_cons.
  change (list_sum (?x :: ?l)) with (x + list_sum l).
  rewrite (IH (if isIN w then k else (k + 1)%Z)).
  unfold clauseText. destruct (isIN w); simpl negb; cbv iota.
  - lia.
  - rewrite !countChar_app. change ("$" ++ fmt.d k) with (String "$" (fmt.d k)).
    assert (H : countChar "?" (String "$" (fmt.d k)) = 0).
    { simpl. apply (countChar_fmt_d "?" k). reflexivity. }
    rewrite H. simpl map. simpl List.length. change (countChar "?" "?") with 1. lia.
Qed.

(** X1. The builder's own compiler and the mysql and sqlite drivers return
    the same text and arguments for every Query.  The postgres driver
    returns the same arguments; its text is the same when no clause is
    bound, and otherwise differs: it has one dollar sign more, and one
    question mark less, for every bound argument. *)
Theorem X1_compilers_side_by_side (q : Query.t) :
  QueryExecutor.buildSelectQueryFromQuery q = SQLiteDriver.BuildQuery q /\
  MySQLDriver.BuildQuery q = SQLiteDriver.BuildQuery q /\
  snd (PostgresDriver.BuildQuery q) = snd (SQLiteDriver.BuildQuery q) /\
  (snd (SQLiteDriver.BuildQuery q) = [] ->
   PostgresDriver.BuildQuery q = SQLiteDriver.BuildQuery q) /\
  countChar "$" (fst (PostgresDriver.BuildQuery q))
    = countChar "$" (fst (SQLiteDriver.BuildQuery q))
      + List.length (snd (SQLiteDriver.BuildQuery q)) /\
  countChar "?" (fst (SQLiteDriver.BuildQuery q))
    = countChar "?" (fst (PostgresDriver.BuildQuery q))
      + List.length (snd (SQLiteDriver.BuildQuery q)) /\
  (snd (SQLiteDriver.BuildQuery q) <> [] ->
   fst (PostgresDriver.BuildQuery q) <> fst (SQLiteDriver.BuildQuery q)).
Proof.
  rewrite executor_build_spec, mysql_BuildQuery_spec, sqlite_BuildQuery_spec,
    postgres_BuildQuery_spec. cbn [fst snd].
  assert (Hd : countChar "$"
                 (strings.Join (selectPart q :: whereOf (pgClauses 1 (Query.Wheres q))
                                  +++ tailOf q) " ")
               = countChar "$"
                   (strings.Join (selectPart q
                                    :: whereOf (map (clauseText "?") (Query.Wheres q))
                                    +++ tailOf q) " ")
                 + List.length (boundValues (Query.Wheres q))).
  { rewrite !(sql_count "$") by (now right). rewrite dollar_count_fragments. lia. }
  split; [reflexivity|]. split; [reflexivity|]. split; [reflexivity|].
  split; [|split; [exact Hd|split]].
  - intros H. now rewrite (pgClauses_all_IN _ 1 (boundValues_nil_all_IN _ H)).
  - rewrite !(sql_count "?") by (now left).
    rewrite (question_count_fragments _ 1). lia.
  - intros Hne Heq. rewrite Heq in Hd.
    destruct (boundValues (Query.Wheres q)); [congruence | simpl in Hd; lia].
Qed.

(** ** Chains of builder calls *)

Lemma applyCalls_snoc qe calls c :
  applyCalls qe (calls +++ [c]) = applyCall (applyCalls qe calls) c.
Proof. unfold applyCalls. now rewrite fold_left_app. Qed.




Lemma boundValues_snoc ws w :
  boundValues (ws +++ [w])
  = boundValues ws +++ (if isIN w then [] else [WhereClause.Value w]).
Proof. rewrite boundValues_app. unfold boundValues. simpl. now destruct (isIN w). Qed.

(** X2. The arguments of a query built by a chain of calls are the values
    given to Where and WhereNot, in call order; a filter whose operator is
    IN binds nothing, whether it was added by WhereIn or by Where itself, and
    no other call binds anything.  The three drivers bind the same. *)
Theorem X2_arguments_follow_call_order (qe : QueryExecutor.t) (calls : list call) :
  let qe' := applyCalls qe calls in
  snd (QueryExecutor.buildSelectQuery qe')
    = snd (QueryExecutor.buildSelectQuery qe) +++ flat_map callBinds calls /\
  snd (SQLiteDriver.BuildQuery (QueryExecutor.query qe'))
    = snd (QueryExecutor.buildSelectQuery qe') /\
  snd (MySQLDriver.BuildQuery (QueryExecutor.query qe'))
    = snd (QueryExecutor.buildSelectQuery qe') /\
  snd (PostgresDriver.BuildQuery (QueryExecutor.query qe'))
    = snd (QueryExecutor.buildSelectQuery qe') /\
  (forall table modelType,
      snd (QueryExecutor.buildSelectQuery
             (applyCalls (QueryExecutor.NewQueryExecutor table modelType) calls))
      = flat_map callBinds calls).
Proof.
  assert (H : forall qe0,
             snd (QueryExecutor.buildSelectQuery (applyCalls qe0 calls))
             = snd (QueryExecutor.buildSelectQuery qe0) +++ flat_map callBinds calls).
  { intros qe0. unfold QueryExecutor.buildSelectQuery.
    induction calls as [|c calls IH] using rev_ind.
    - simpl. now rewrite app_nil_r.
    - rewrite applyCalls_snoc, flat_map_app, app_assoc, <- IH.
      rewrite !executor_build_spec. cbn [snd]. simpl flat_map. rewrite app_nil_r.
      destruct c; cbn [applyCall callBinds QueryExecutor.Where QueryExecutor.WhereIn
                         QueryExecutor.WhereNot QueryExecutor.OrderBy
                         QueryExecutor.Limit QueryExecutor.Offset
                         QueryExecutor.Select QueryExecutor.Include
                         QueryExecutor.withQuery QueryExecutor.query
                         QueryExecutor.setWheres QueryExecutor.setOrders
                         QueryExecutor.setLimitVal QueryExecutor.setOffsetVal
                         QueryExecutor.setFields QueryExecutor.setIncludes
                         Query.Wheres];
        unfold slice.append; rewrite ?boundValues_snoc, ?app_nil_r;
        try reflexivity. }
  intros qe'. subst qe'.
  split; [apply H|].
  assert (Hnew : forall table modelType,
             snd (QueryExecutor.buildSelectQuery
                    (applyCalls (QueryExecutor.NewQueryExecutor table modelType) calls))
             = flat_map callBinds calls).
  { intros table modelType. now rewrite H. }
  unfold QueryExecutor.buildSelectQuery in *.
  rewrite sqlite_BuildQuery_spec, mysql_BuildQuery_spec, postgres_BuildQuery_spec,
    executor_build_spec.
  repeat (split; [reflexivity|]). exact Hnew.
Qed.


(** ** The terminal operations that read rows *)

Lemma allLoop_ok {Row Item : Type} (scanner : Row -> option Item * option error) rows :
  forall results,
    Forall (fun r => snd (scanner r) = None) rows ->
    QueryExecutor.allLoop scanner rows results
    = inr (results +++ map (fun r => fst (scanner r)) rows).
Proof.
  induction rows as [|r rows IH]; intros results H; simpl.
  - now rewrite app_nil_r.
  - inversion H as [|? ? Hr Hrows]; subst.
    destruct (scanner r) as [item [e|]] eqn:E; simpl in Hr; [discriminate|].
    rewrite (IH _ Hrows). unfold slice.append. now rewrite <- app_assoc.
Qed.

Lemma allLoop_error {Row Item : Type} (scanner : Row -> option Item * option error)
    pre r post e :
  forall results,
    Forall (fun r => snd (scanner r) = None) pre ->
    snd (scanner r) = Some e ->
    QueryExecutor.allLoop scanner (pre +++ r :: post) results = inl ([], Some e).
Proof.
  induction pre as [|x pre IH]; intros results Hpre He; simpl.
  - destruct (scanner r) as [item [e'|]]; simpl in He; [now injection He as -> | discriminate].
  - inversion Hpre as [|? ? Hx Hrest]; subst.
    destruct (scanner x) as [item [e'|]]; simpl in Hx; [discriminate|].
    now apply IH.
Qed.

Lemma First_fst {Row Item : Type} (GetDB : option (QueryDB.t Row))
    (scanner : Row -> option Item * option error) (qe : QueryExecutor.t) :
  fst (QueryExecutor.First GetDB scanner qe) = QueryExecutor.Limit qe 1.
Proof.
  unfold QueryExecutor.First, QueryExecutor.Limit.
  destruct GetDB as [db|]; [|reflexivity].
  destruct (QueryExecutor.buildSelectQuery _) as [sql args].
  destruct (QueryDB.Query db sql args) as [rs|e]; [|reflexivity].
  now destruct (Rows.rows rs).
Qed.

Lemma First_again {Row Item : Type} (GetDB : option (QueryDB.t Row))
    (scanner : Row -> option Item * option error) (qe : QueryExecutor.t) :
  QueryExecutor.First GetDB scanner (fst (QueryExecutor.First GetDB scanner qe))
  = QueryExecutor.First GetDB scanner qe.
Proof. rewrite First_fst. reflexivity. Qed.

(** X4. First writes the limit 1 into the builder before it looks for the
    database, so an earlier Limit is lost whatever happens next and the
    builder keeps the limit 1 afterwards.  Without a database it reports that
    the database is not initialised; an error of the query is passed on; when
    the iterator delivers no row the answer is the no-rows error, also when
    the iterator itself stopped on an error; otherwise the answer is what the
    scanner makes of the first row.  Calling it again on the builder it
    leaves gives the same. *)
Theorem X4_first_forces_limit_one {Row Item : Type}
    (GetDB : option (QueryDB.t Row)) (scanner : Row -> option Item * option error)
    (qe : QueryExecutor.t) :
  let first := QueryExecutor.First GetDB scanner in
  let limited := QueryExecutor.Limit qe 1 in
  fst (first qe) = limited /\
  (forall n, first (QueryExecutor.Limit qe n) = first qe) /\
  first (fst (first qe)) = first qe /\
  QueryExecutor.First None scanner qe
    = (limited, (@None Item, Some "database not initialized")) /\
  fst (QueryExecutor.buildSelectQuery limited)
    = strings.Join
        (selectPart (QueryExecutor.query qe)
           :: whereOf (map (clauseText "?") (Query.Wheres (QueryExecutor.query qe)))
           +++ orderOf (QueryExecutor.query qe) +++ ["LIMIT 1"]
           +++ offsetOf (QueryExecutor.query qe)) " " /\
  (forall db,
      snd (QueryExecutor.First (Some db) scanner qe)
      = match QueryDB.Query db (fst (QueryExecutor.buildSelectQuery limited))
                (snd (QueryExecutor.buildSelectQuery limited)) with
        | inr err => (None, Some err)
        | inl rs =>
            match Rows.rows rs with
            | [] => (None, Some ErrNoRows)
            | row :: _ => scanner row
            end
        end).
Proof.
  intros first limited. subst first limited.
  split; [apply First_fst|]. split; [reflexivity|]. split; [apply First_again|].
  split; [reflexivity|]. split.
  { unfold QueryExecutor.buildSelectQuery. rewrite executor_build_spec. reflexivity. }
  intros db. unfold QueryExecutor.First. fold (QueryExecutor.Limit qe 1).
  destruct (QueryExecutor.buildSelectQuery (QueryExecutor.Limit qe 1)) as [sql args].
  cbn [fst snd]. destruct (QueryDB.Query db sql args) as [rs|e]; [|reflexivity].
  now destruct (Rows.rows rs).
Qed.

(** X5. Last on a builder without an ordering is First on the builder
    ordered by id, descending; on a builder that has an ordering it is First
    itself, the ordering is not reversed.  The ordering it adds stays in the
    builder, and a second Last adds no other. *)
Theorem X5_last_orders_by_id_descending {Row Item : Type}
    (GetDB : option (QueryDB.t Row)) (scanner : Row -> option Item * option error)
    (qe : QueryExecutor.t) :
  let first := QueryExecutor.First GetDB scanner in
  let last := QueryExecutor.Last GetDB scanner in
  (Query.Orders (QueryExecutor.query qe) = [] ->
   last qe = first (QueryExecutor.OrderBy qe "id" "desc") /\
   Query.Orders (QueryExecutor.query (fst (last qe))) = [OrderClause.mk "id" "DESC"] /\
   fst (QueryExecutor.buildSelectQuery (fst (last qe)))
     = strings.Join
         (selectPart (QueryExecutor.query qe)
            :: whereOf (map (clauseText "?") (Query.Wheres (QueryExecutor.query qe)))
            +++ ["ORDER BY id DESC"; "LIMIT 1"]
            +++ offsetOf (QueryExecutor.query qe)) " ") /\
  (Query.Orders (QueryExecutor.query qe) <> [] -> last qe = first qe) /\
  last (fst (last qe)) = last qe.
Proof.
  intros first last. subst first last.
  assert (Hlast : forall q,
             QueryExecutor.Last GetDB scanner q
             = QueryExecutor.First GetDB scanner
                 (match Query.Orders (QueryExecutor.query q) with
                  | [] => QueryExecutor.OrderBy q "id" "desc"
                  | _ => q
                  end)).
  { intros q. unfold QueryExecutor.Last, QueryExecutor.OrderBy.
    destruct (Query.Orders (QueryExecutor.query q)); reflexivity. }
  split; [|split].
  - intros Hno. rewrite Hlast, Hno, First_fst.
    split; [reflexivity|]. split.
    + cbn. rewrite Hno. reflexivity.
    + unfold QueryExecutor.buildSelectQuery. rewrite executor_build_spec. cbn [fst].
      unfold tailOf, orderOf, limitOf, offsetOf. cbn. rewrite Hno. reflexivity.
  - intros Hsome. rewrite Hlast.
    destruct (Query.Orders (QueryExecutor.query qe)); [contradiction | reflexivity].
  - rewrite (Hlast (fst _)), (Hlast qe).
    rewrite <- (First_again GetDB scanner
                  (match Query.Orders (QueryExecutor.query qe) with
                   | [] => QueryExecutor.OrderBy qe "id" "desc"
                   | _ => qe
                   end)) at 2.
    f_equal. rewrite First_fst.
    destruct (Query.Orders (QueryExecutor.query qe)) eqn:E;
      unfold QueryExecutor.Limit, QueryExecutor.OrderBy, QueryExecutor.withQuery,
        QueryExecutor.setLimitVal, QueryExecutor.setOrders;
      cbn [QueryExecutor.query Query.Orders]; rewrite E; reflexivity.
Qed.

(** X6. All without a database reports that the database is not initialised
    and passes an error of the query on.  Otherwise it returns what the
    scanner makes of every row, in row order, with the error of the iterator;
    no row gives the empty result.  The first row the scanner fails on ends
    it: the items read so far are dropped and the scanner's error is
    returned. *)
Theorem X6_all_scans_in_row_order {Row Item : Type}
    (scanner : Row -> option Item * option error) (qe : QueryExecutor.t) :
  let sql := fst (QueryExecutor.buildSelectQuery qe) in
  let args := snd (QueryExecutor.buildSelectQuery qe) in
  let scans r := snd (scanner r) = None in
  QueryExecutor.All None scanner qe = ([], Some "database not initialized") /\
  (forall db e,
      QueryDB.Query db sql args = inr e ->
      QueryExecutor.All (Some db) scanner qe = ([], Some e)) /\
  (forall db rs,
      QueryDB.Query db sql args = inl rs ->
      Forall scans (Rows.rows rs) ->
      QueryExecutor.All (Some db) scanner qe
      = (map (fun r => fst (scanner r)) (Rows.rows rs), Rows.Err rs)) /\
  (forall db rs pre r post e,
      QueryDB.Query db sql args = inl rs ->
      Rows.rows rs = pre +++ r :: post ->
      Forall scans pre -> snd (scanner r) = Some e ->
      QueryExecutor.All (Some db) scanner qe = ([], Some e)).
Proof.
  intros sql args scans. subst sql args scans. unfold QueryExecutor.All.
  destruct (QueryExecutor.buildSelectQuery qe) as [sql args]. cbn [fst snd].
  split; [reflexivity|]. split; [|split].
  - intros db e ->. reflexivity.
  - intros db rs -> Hok. now rewrite (allLoop_ok scanner _ [] Hok).
  - intros db rs pre r post e -> -> Hpre He.
    now rewrite (allLoop_error scanner pre r post e [] Hpre He).
Qed.

(** ** The parser across calls *)

Lemma scanLoop_prefix lines : forall ms ms0 cur inModel,
  Parser.scanLoop lines (Parser.mk (Schema.mk (ms +++ ms0))) cur inModel
  = let '(p0, c, e) := Parser.scanLoop lines (Parser.mk (Schema.mk ms0)) cur inModel in
    (Parser.mk (Schema.mk (ms +++ Schema.Models (Parser.schema p0))), c, e).
Proof.
  induction lines as [|text lines IH]; intros ms ms0 cur inModel; [reflexivity|].
  cbn [Parser.scanLoop]. set (line := strings.TrimSpace text).
  assert (Happ : forall m,
             Parser.appendModel (Parser.mk (Schema.mk (ms +++ ms0))) m
             = Parser.mk (Schema.mk (ms +++ (ms0 +++ [m])))).
  { intros m. unfold Parser.appendModel, slice.append. cbn. now rewrite app_assoc. }
  assert (Happ0 : forall m,
             Parser.appendModel (Parser.mk (Schema.mk ms0)) m
             = Parser.mk (Schema.mk (ms0 +++ [m]))) by reflexivity.
  destruct ((line =? EmptyString) || strings.HasPrefix line "//"); [apply IH|].
  destruct (strings.HasPrefix line "model ").
  { destruct cur as [m|]; [rewrite Happ, Happ0|]; apply IH. }
  destruct ((line =? "}") && inModel).
  { destruct cur as [m|]; [rewrite Happ, Happ0|]; apply IH. }
  destruct inModel; [|apply IH].
  destruct cur as [m|]; [|apply IH].
  destruct (Parser.parseField line m) as [m' [e|]]; [reflexivity | apply IH].
Qed.

(** X7. A parser keeps the models of its earlier calls.  ParseFile on a
    parser that already holds models fails exactly as a fresh parser would,
    and otherwise returns the models it held followed by the models a fresh
    parser returns for the file.  So parsing the same file twice with one
    parser returns every model twice. *)
Theorem X7_parser_accumulates (p : Parser.t) (file : File.t) :
  let fresh := Parser.ParseFile Parser.NewParser file in
  let again := Parser.ParseFile p file in
  snd (snd again) = snd (snd fresh) /\
  Schema.Models (Parser.schema (fst again))
    = Schema.Models (Parser.schema p) +++ Schema.Models (Parser.schema (fst fresh)) /\
  fst (snd again)
    = match fst (snd fresh) with
      | Some s => Some (Schema.mk (Schema.Models (Parser.schema p) +++ Schema.Models s))
      | None => None
      end /\
  (forall s,
      fst (snd fresh) = Some s ->
      fst (snd (Parser.ParseFile (fst fresh) file))
      = Some (Schema.mk (Schema.Models s +++ Schema.Models s))).
Proof.
  assert (H : forall p0,
    let fresh := Parser.ParseFile Parser.NewParser file in
    let again := Parser.ParseFile p0 file in
    snd (snd again) = snd (snd fresh) /\
    Schema.Models (Parser.schema (fst again))
      = Schema.Models (Parser.schema p0) +++ Schema.Models (Parser.schema (fst fresh)) /\
    fst (snd again)
      = match fst (snd fresh) with
        | Some s => Some (Schema.mk (Schema.Models (Parser.schema p0) +++ Schema.Models s))
        | None => None
        end /\
    (fst (snd fresh) <> None ->
     fst (snd fresh) = Some (Parser.schema (fst fresh)))).
  { intros [[ms]]. cbv zeta. destruct file as [e | lines scanErr].
    - cbn. rewrite app_nil_r. repeat split; congruence.
    - unfold Parser.ParseFile.
      pose proof (scanLoop_prefix lines ms [] None false) as Hp.
      rewrite app_nil_r in Hp. rewrite Hp. unfold Parser.NewParser.
      destruct (Parser.scanLoop lines (Parser.mk (Schema.mk [])) None false)
        as [[[[ms0]] c] [e|]]; cbn [fst snd Parser.schema Schema.Models].
      + repeat split; congruence.
      + destruct c as [m|]; unfold Parser.appendModel, slice.append;
          cbn [fst snd Parser.schema Schema.Models]; rewrite <- ?app_assoc;
          repeat split; reflexivity. }
  intros fresh again. subst fresh again.
  destruct (H p) as (He & Hm & Hs & _).
  split; [exact He|]. split; [exact Hm|]. split; [exact Hs|].
  intros s Hfresh.
  destruct (H (fst (Parser.ParseFile Parser.NewParser file))) as (_ & _ & Hs' & _).
  destruct (H Parser.NewParser) as (_ & _ & _ & Hsame).
  rewrite Hs', Hfresh. rewrite Hfresh in Hsame.
  assert (Heq : s = Parser.schema (fst (Parser.ParseFile Parser.NewParser file))).
  { assert (Hn : Some s <> None) by discriminate. specialize (Hsame Hn). congruence. }
  now rewrite <- Heq.
Qed.

(** ** Lines the parser passes over *)

Lemma TrimLeft_all cut s : allChars cut s = true -> strings.TrimLeft s cut = EmptyString.
Proof.
  induction s as [|c s IH]; simpl; [reflexivity|].
  intros H. apply andb_true_iff in H as [Hc Hs]. now rewrite Hc, IH.
Qed.

Lemma TrimRight_nil cut s :
  strings.TrimRight s cut = EmptyString -> allChars cut s = true.
Proof.
  induction s as [|c s IH]; simpl; [reflexivity|].
  destruct (strings.TrimRight s cut) eqn:E; [|discriminate].
  destruct (cut c); [|discriminate]. intros _. now rewrite IH.
Qed.

Lemma TrimLeft_nil cut s :
  strings.TrimLeft s cut = EmptyString -> allChars cut s = true.
Proof.
  induction s as [|c s IH]; simpl; [reflexivity|].
  destruct (cut c); [|discriminate]. exact IH.
Qed.

Lemma TrimLeft_suffix cut s : exists p, s = p ++ strings.TrimLeft s cut /\ allChars cut p = true.
Proof.
  induction s as [|c s (p & Hp & Hall)]; simpl.
  - exists EmptyString. now split.
  - destruct (cut c) eqn:E.
    + exists (String c p). simpl. rewrite E, Hall. split; [now rewrite <- Hp | reflexivity].
    + exists EmptyString. now split.
Qed.

Lemma allChars_app p a b : allChars p (a ++ b) = allChars p a && allChars p b.
Proof. induction a as [|c a IH]; simpl; [reflexivity | now rewrite IH, andb_assoc]. Qed.

Lemma TrimSpace_blank s :
  strings.TrimSpace s = EmptyString <-> allChars strings.isSpace s = true.
Proof.
  unfold strings.TrimSpace, strings.TrimFunc. split.
  - intros H. apply TrimRight_nil in H.
    destruct (TrimLeft_suffix strings.isSpace s) as (p & Hp & Hall).
    rewrite Hp, allChars_app, Hall, H. reflexivity.
  - intros H. now rewrite (TrimLeft_all _ _ H).
Qed.

(** X8. Blank lines, lines of white space only and comment lines take no
    part in parsing: the parser returns the same for a text and for the text
    without them, wherever they stand. *)
Theorem X8_blank_and_comment_lines_ignored
    (p : Parser.t) (lines : list string) (scanErr : option error) :
  Parser.ParseFile p (File.Lines (filter (fun text => negb (ignoredLine text)) lines) scanErr)
    = Parser.ParseFile p (File.Lines lines scanErr) /\
  (forall text, allChars strings.isSpace text = true -> ignoredLine text = true) /\
  (forall text rest, strings.TrimSpace text = "//" ++ rest -> ignoredLine text = true).
Proof.
  split; [|split].
  - unfold Parser.ParseFile. f_equal.
    generalize (@None ModelSchema.t) as cur. generalize false as inModel. revert p.
    induction lines as [|text lines IH]; intros p inModel cur; [reflexivity|].
    cbn [filter]. unfold ignoredLine at 1. cbn [Parser.scanLoop].
    set (line := strings.TrimSpace text).
    destruct ((line =? EmptyString) || strings.HasPrefix line "//") eqn:E; cbn [negb].
    + apply IH.
    + cbn [Parser.scanLoop]. fold line. rewrite E.
      destruct (strings.HasPrefix line "model "); [apply IH|].
      destruct ((line =? "}") && inModel); [destruct cur; apply IH|].
      destruct inModel; [|apply IH]. destruct cur as [m|]; [|apply IH].
      destruct (Parser.parseField line m) as [m' [e|]]; [reflexivity | apply IH].
  - intros text H. unfold ignoredLine. apply TrimSpace_blank in H. now rewrite H.
  - intros text rest H. unfold ignoredLine, strings.HasPrefix. rewrite H.
    destruct rest; reflexivity.
Qed.

(** ** Trimming and splitting words without white space *)










Lemma str_app_inj_last a : forall b x y,
  a ++ String x EmptyString = b ++ String y EmptyString -> x = y.
Proof.
  induction a as [|c a IH]; intros b x y H.
  - destruct b as [|d b]; simpl in H; [congruence|].
    destruct b; simpl in H; discriminate.
  - destruct b as [|d b]; simpl in H.
    + destruct a; simpl in H; discriminate.
    + injection H as _ H. exact (IH _ _ _ H).
Qed.






(** ** Field declarations *)





(** ** The argument of an annotation *)

Lemma span_isNot d s :
  countChar d (fst (regexp.span (regexp.isNot d) s)) = 0.
Proof.
  induction s as [|c s IH]; simpl; [reflexivity|].
  unfold regexp.isNot at 1. destruct (Ascii.eqb c d) eqn:E; simpl; [reflexivity|].
  destruct (regexp.span (regexp.isNot d) s) as [a r]. simpl in *. now rewrite E.
Qed.

Lemma matchAttributeAt_arg s name arg len :
  regexp.matchAttributeAt s = Some (name, arg, len) -> countChar ")" arg = 0.
Proof.
  unfold regexp.matchAttributeAt.
  destruct (regexp.literal "@" s) as [s1|]; [|discriminate].
  destruct (regexp.span regexp.isWord s1) as [nm s2].
  destruct nm as [|c nm]; [discriminate|].
  destruct (regexp.literal "(" s2) as [s3|]; [|now intros [= <- <- <-]].
  pose proof (span_isNot ")" s3) as Hspan.
  destruct (regexp.span (regexp.isNot ")") s3) as [a s4]. simpl in Hspan.
  destruct (regexp.literal ")" s4); intros [= <- <- <-]; [exact Hspan | reflexivity].
Qed.

Lemma findAllAttributes_args s : forall skip,
  Forall (fun ma => countChar ")" (snd ma) = 0) (regexp.findAllAttributes s skip).
Proof.
  induction s as [|c s IH]; intros skip; simpl; [constructor|].
  destruct skip as [|k]; [|apply IH].
  destruct (regexp.matchAttributeAt (String c s)) as [[[name arg] len]|] eqn:E; [|apply IH].
  constructor; [|apply IH]. simpl. exact (matchAttributeAt_arg _ _ _ _ E).
Qed.

Lemma countChar_TrimLeft c cut s :
  countChar c (strings.TrimLeft s cut) <= countChar c s.
Proof.
  induction s as [|x s IH]; simpl; [apply Nat.le_refl|].
  destruct (cut x); simpl; lia.
Qed.

Lemma countChar_TrimRight c cut s :
  countChar c (strings.TrimRight s cut) <= countChar c s.
Proof.
  induction s as [|x s IH]; simpl; [apply Nat.le_refl|].
  destruct (strings.TrimRight s cut) eqn:E.
  - destruct (cut x); simpl in *; lia.
  - simpl in *. lia.
Qed.

Lemma parseDefaultValue_without_paren arg :
  countChar ")" arg = 0 ->
  let val := strings.Trim arg (dq ++ "'") in
  Parser.parseDefaultValue arg
  = if val =? "true" then VBool true
    else if val =? "false" then VBool false
    else VString val.
Proof.
  intros Harg val. unfold Parser.parseDefaultValue. fold val.
  assert (Hval : countChar ")" val = 0).
  { subst val. unfold strings.Trim, strings.TrimFunc.
    pose proof (countChar_TrimRight ")" (strings.inCutset (dq ++ "'"))
                  (strings.TrimLeft arg (strings.inCutset (dq ++ "'")))).
    pose proof (countChar_TrimLeft ")" (strings.inCutset (dq ++ "'")) arg). lia. }
  destruct (String.eqb_spec val "now()") as [E|_].
  - rewrite E in Hval. discriminate.
  - now destruct (strings.Contains val ".").
Qed.

Lemma attributeLoop_no_sentinel matches : forall field,
  Forall (fun ma =>
            countChar ")" (snd ma) = 0 /\
            (fst ma = "default" ->
             strings.Trim (snd ma) (dq ++ "'") <> "CURRENT_TIMESTAMP")) matches ->
  FieldSchema.Default field <> VString "CURRENT_TIMESTAMP" ->
  FieldSchema.Default (Parser.attributeLoop matches field) <> VString "CURRENT_TIMESTAMP".
Proof.
  induction matches as [|[attrName attrValue] matches IH]; intros field Hall Hf;
    [exact Hf|].
  inversion Hall as [|? ? [Harg Hdef] Hrest]; subst. cbn [fst snd] in *.
  cbn [Parser.attributeLoop]. apply IH; [exact Hrest|].
  destruct (attrName =? "id"); [exact Hf|].
  destruct (attrName =? "auto"); [exact Hf|].
  destruct (attrName =? "unique"); [exact Hf|].
  destruct (String.eqb_spec attrName "default") as [E|_].
  - cbn [Parser.setDefault FieldSchema.Default].
    rewrite (parseDefaultValue_without_paren _ Harg). cbv zeta.
    destruct (_ =? "true"); [discriminate|].
    destruct (_ =? "false"); [discriminate|].
    intros [= H]. exact (Hdef E H).
  - destruct (attrName =? "updatedAt"); [discriminate | exact Hf].
Qed.

(** X11. The argument the parser reads for an annotation never contains a
    closing parenthesis, so the case of parseDefaultValue that turns now()
    into the sentinel CURRENT_TIMESTAMP is never reached from a schema text:
    a default is true, false or the argument without its quotes.  A field
    gets the sentinel only from an annotation default whose argument is the
    text CURRENT_TIMESTAMP itself; the annotation default(now()) leaves the
    text now( and the column default 'now('. *)
Theorem X11_default_never_reaches_sentinel (attributeStr : string) (field : FieldSchema.t) :
  let matches := regexp.findAllAttributes attributeStr 0 in
  Forall (fun ma =>
            countChar ")" (snd ma) = 0 /\
            Parser.parseDefaultValue (snd ma)
            = let val := strings.Trim (snd ma) (dq ++ "'") in
              if val =? "true" then VBool true
              else if val =? "false" then VBool false
              else VString val) matches /\
  (FieldSchema.Default field <> VString "CURRENT_TIMESTAMP" ->
   (forall arg, In ("default", arg) matches ->
                strings.Trim arg (dq ++ "'") <> "CURRENT_TIMESTAMP") ->
   FieldSchema.Default (fst (Parser.parseAttributes attributeStr field))
   <> VString "CURRENT_TIMESTAMP") /\
  (let m := ModelSchema.mk "Post" "posts" [] [] in
   exists f,
     Parser.parseField "createdAt DateTime @default(now())" m
     = (ModelSchema.mk "Post" "posts" [f] [], None) /\
     FieldSchema.Default f = VString "now(" /\
     PostgresDriver.buildColumnDefinition f = "createdAt TIMESTAMP NOT NULL DEFAULT 'now('").
Proof.
  intros matches. subst matches.
  pose proof (findAllAttributes_args attributeStr 0) as Hargs.
  split; [|split].
  - eapply Forall_impl; [|exact Hargs]. intros ma H. split; [exact H|].
    now apply parseDefaultValue_without_paren.
  - intros Hf Hdef. unfold Parser.parseAttributes. cbn [fst].
    apply attributeLoop_no_sentinel; [|exact Hf].
    apply Forall_forall. intros [n a] Hin. cbn [fst snd]. split.
    + exact (proj1 (Forall_forall _ _) Hargs (n, a) Hin).
    + intros ->. now apply Hdef.
  - intros m. eexists. split; [reflexivity|]. split; reflexivity.
Qed.



(** ** Columns of primary keys *)

(** X13. The column of a primary key never carries UNIQUE or NOT NULL: under
    every dialect its definition is the same whatever the unique and optional
    flags of the field.  When the field is also auto-generated the declared
    type plays no part either, the dialect's auto-increment type is used.  A
    field that is not primary has the same column with or without the
    auto-generated flag. *)
Theorem X13_primary_key_column
    (name ty : string) (opt uni auto : bool) (def : value) (dbt : string) :
  (forall opt' uni',
      PostgresDriver.buildColumnDefinition (FieldSchema.mk name ty opt uni true auto def dbt)
      = PostgresDriver.buildColumnDefinition (FieldSchema.mk name ty opt' uni' true auto def dbt)
      /\
      MySQLDriver.buildColumnDefinition (FieldSchema.mk name ty opt uni true auto def dbt)
      = MySQLDriver.buildColumnDefinition (FieldSchema.mk name ty opt' uni' true auto def dbt)
      /\
      SQLiteDriver.buildColumnDefinition (FieldSchema.mk name ty opt uni true auto def dbt)
      = SQLiteDriver.buildColumnDefinition (FieldSchema.mk name ty opt' uni' true auto def dbt))
  /\
  (forall ty',
      PostgresDriver.buildColumnDefinition (FieldSchema.mk name ty opt uni true true def dbt)
      = PostgresDriver.buildColumnDefinition (FieldSchema.mk name ty' opt uni true true def dbt)
      /\
      MySQLDriver.buildColumnDefinition (FieldSchema.mk name ty opt uni true true def dbt)
      = MySQLDriver.buildColumnDefinition (FieldSchema.mk name ty' opt uni true true def dbt)
      /\
      SQLiteDriver.buildColumnDefinition (FieldSchema.mk name ty opt uni true true def dbt)
      = SQLiteDriver.buildColumnDefinition (FieldSchema.mk name ty' opt uni true true def dbt))
  /\
  (forall auto',
      PostgresDriver.buildColumnDefinition (FieldSchema.mk name ty opt uni false auto def dbt)
      = PostgresDriver.buildColumnDefinition (FieldSchema.mk name ty opt uni false auto' def dbt)
      /\
      MySQLDriver.buildColumnDefinition (FieldSchema.mk name ty opt uni false auto def dbt)
      = MySQLDriver.buildColumnDefinition (FieldSchema.mk name ty opt uni false auto' def dbt)
      /\
      SQLiteDriver.buildColumnDefinition (FieldSchema.mk name ty opt uni false auto def dbt)
      = SQLiteDriver.buildColumnDefinition (FieldSchema.mk name ty opt uni false auto' def dbt))
  /\
  (def = VNil ->
   PostgresDriver.buildColumnDefinition (FieldSchema.mk name ty opt uni true true def dbt)
     = name ++ " SERIAL PRIMARY KEY" /\
   MySQLDriver.buildColumnDefinition (FieldSchema.mk name ty opt uni true true def dbt)
     = name ++ " INT AUTO_INCREMENT PRIMARY KEY" /\
   SQLiteDriver.buildColumnDefinition (FieldSchema.mk name ty opt uni true true def dbt)
     = name ++ " INTEGER PRIMARY KEY AUTOINCREMENT").
Proof.
  unfold PostgresDriver.buildColumnDefinition, MySQLDriver.buildColumnDefinition,
    SQLiteDriver.buildColumnDefinition.
  cbn [FieldSchema.Name FieldSchema.Type_ FieldSchema.Optional FieldSchema.Unique
       FieldSchema.Primary FieldSchema.AutoGen FieldSchema.Default].
  split; [|split; [|split]].
  - intros opt' uni'. destruct opt, uni, opt', uni', auto; repeat split; reflexivity.
  - intros ty'. destruct opt, uni; repeat split; reflexivity.
  - intros auto'. destruct auto, auto'; repeat split; reflexivity.
  - intros ->. destruct opt, uni; repeat split; reflexivity.
Qed.

(** ** Names: cases and plurals *)

Ltac ascii_cases c := destruct c as [[] [] [] [] [] [] [] []].

Lemma isUpper_toLower c : strings.isUpper (strings.toLower c) = false.
Proof. ascii_cases c; reflexivity. Qed.

Lemma toUpper_toLower c :
  strings.isUpper c = true -> strings.toUpper (strings.toLower c) = c.
Proof. ascii_cases c; intros H; try reflexivity; discriminate H. Qed.

Lemma toLower_toUpper c :
  strings.isLower c = true -> strings.toLower (strings.toUpper c) = c.
Proof. ascii_cases c; intros H; try reflexivity; discriminate H. Qed.

Lemma isUpper_toUpper c :
  strings.isLower c = true -> strings.isUpper (strings.toUpper c) = true.
Proof. ascii_cases c; intros H; try reflexivity; discriminate H. Qed.

Lemma toLower_id c : strings.isUpper c = false -> strings.toLower c = c.
Proof. intros H. unfold strings.toLower. now rewrite H. Qed.

Lemma toLower_not_underscore c :
  strings.isUpper c = true -> Ascii.eqb (strings.toLower c) "_" = false.
Proof. ascii_cases c; intros H; try reflexivity; discriminate H. Qed.

Lemma lowerOrDigit_facts c :
  isLowerOrDigit c = true ->
  strings.isUpper c = false /\ Ascii.eqb c "_" = false.
Proof. ascii_cases c; intros H; try (split; reflexivity); discriminate H. Qed.

Lemma isLower_facts c :
  strings.isLower c = true -> isLowerOrDigit c = true.
Proof. intros H. unfold isLowerOrDigit. now rewrite H. Qed.

Lemma snakeLoop_spec str : forall i result,
  snakeLoop str i result = result ++ snakeFrom (i =? 0)%nat str.
Proof.
  induction str as [|c str IH]; intros i result; simpl.
  - now rewrite str_app_nil_r.
  - rewrite IH. destruct i as [|i]; simpl.
    + now rewrite str_app_assoc.
    + destruct (strings.isUpper c); simpl; rewrite !str_app_assoc; reflexivity.
Qed.

Lemma ToSnakeCase_spec str : ToSnakeCase str = snakeFrom true str.
Proof. unfold ToSnakeCase. now rewrite snakeLoop_spec. Qed.




Lemma capitalize_app cur rest :
  cur <> EmptyString -> capitalize (cur ++ rest) = capitalize cur ++ rest.
Proof. destruct cur; [contradiction | reflexivity]. Qed.

Lemma pascal_of_snake r : forall cur acc,
  cur <> EmptyString -> countChar "_" r = 0 ->
  pascalLoop (strings.splitFrom (snakeFrom false r) "_" cur) acc
  = acc ++ capitalize cur ++ r.
Proof.
  induction r as [|x r IH]; intros cur acc Hcur Hr.
  - simpl. destruct cur as [|c cur]; [contradiction|]. simpl.
    now rewrite str_app_nil_r.
  - simpl in Hr. destruct (Ascii.eqb x "_") eqn:Ex; [discriminate|]. simpl in Hr.
    simpl snakeFrom. destruct (strings.isUpper x) eqn:Eu; simpl.
    + rewrite (toLower_not_underscore x Eu).
      destruct cur as [|c cur]; [contradiction|].
      rewrite IH; [|discriminate|exact Hr]. simpl.
      rewrite (toUpper_toLower x Eu), str_app_assoc. reflexivity.
    + rewrite (toLower_id x Eu), Ex.
      rewrite IH; [|destruct cur; discriminate|exact Hr].
      rewrite (capitalize_app _ _ Hcur), !str_app_assoc. reflexivity.
Qed.

(** X15. From a name in Pascal case to snake case and back.  For an ASCII
    name that starts with an upper-case letter and has no underscore,
    ToPascalCase undoes ToSnakeCase. *)
Theorem X15_pascal_of_snake (c : ascii) (r : string) :
  strings.isUpper c = true ->
  countChar "_" (String c r) = 0 ->
  allChars isAscii (String c r) = true ->
  ToPascalCase (ToSnakeCase (String c r)) = String c r.
Proof.
  intros Hc Hr _. rewrite ToSnakeCase_spec. simpl snakeFrom.
  unfold ToPascalCase, strings.SplitChar. simpl.
  rewrite (toLower_not_underscore c Hc).
  simpl in Hr. destruct (Ascii.eqb c "_"); [discriminate|]. simpl in Hr.
  rewrite pascal_of_snake; [|discriminate|exact Hr]. simpl.
  now rewrite (toUpper_toLower c Hc).
Qed.

(** X15 at the names BlogPost and HTTPServer. *)
Lemma X15_witness_blog_post :
  ToPascalCase (ToSnakeCase "BlogPost") = "BlogPost" /\
  ToSnakeCase "BlogPost" = "blog_post" /\
  ToPascalCase (ToSnakeCase "HTTPServer") = "HTTPServer".
Proof.
  split; [exact (X15_pascal_of_snake "B" "logPost" eq_refl eq_refl eq_refl)|].
  split; [reflexivity|].
  exact (X15_pascal_of_snake "H" "TTPServer" eq_refl eq_refl eq_refl).
Defined.

Lemma splitFrom_word w : forall rest cur,
  countChar "_" w = 0 ->
  strings.splitFrom (w ++ rest) "_" cur = strings.splitFrom rest "_" (cur ++ w).
Proof.
  induction w as [|c w IH]; intros rest cur H; simpl.
  - now rewrite str_app_nil_r.
  - simpl in H. destruct (Ascii.eqb c "_"); [discriminate|]. simpl in H.
    rewrite (IH _ _ H), str_app_assoc. reflexivity.
Qed.

Lemma split_join words : forall cur,
  words <> [] -> (forall w, In w words -> countChar "_" w = 0) ->
  strings.splitFrom (strings.Join words "_") "_" cur
  = match words with
    | w :: rest => (cur ++ w) :: rest
    | [] => []
    end.
Proof.
  induction words as [|w words IH]; intros cur Hne H; [contradiction|].
  destruct words as [|w2 words].
  - simpl. rewrite <- (str_app_nil_r w) at 1.
    now rewrite (splitFrom_word w _ _ (H w (or_introl eq_refl))).
  - rewrite Join_cons2, (splitFrom_word w _ _ (H w (or_introl eq_refl))).
    simpl. f_equal. rewrite IH; [reflexivity | discriminate |].
    intros w' Hw'. apply H. now right.
Qed.

Lemma pascalLoop_spec parts : forall acc,
  pascalLoop parts acc = acc ++ String.concat EmptyString (map capitalize parts).
Proof.
  induction parts as [|part parts IH]; intros acc; simpl.
  - now rewrite str_app_nil_r.
  - destruct part as [|c tail]; rewrite IH; simpl.
    + destruct parts; simpl; [now rewrite !str_app_nil_r | reflexivity].
    + destruct parts; simpl; rewrite ?str_app_nil_r, ?str_app_assoc; reflexivity.
Qed.

Lemma snakeFrom_lower t : forall rest,
  allChars isLowerOrDigit t = true ->
  snakeFrom false (t ++ rest) = t ++ snakeFrom false rest.
Proof.
  induction t as [|c t IH]; intros rest H; simpl; [reflexivity|].
  simpl in H. apply andb_true_iff in H as [Hc Ht].
  destruct (lowerOrDigit_facts c Hc) as [Hu _].
  rewrite Hu, (toLower_id c Hu), (IH _ Ht). reflexivity.
Qed.

Lemma snakeFrom_word w rest first :
  snakeWord w = true ->
  snakeFrom first (capitalize w ++ rest)
  = (if first then EmptyString else "_") ++ w ++ snakeFrom false rest.
Proof.
  intros H. destruct w as [|c t]; [discriminate|]. simpl in H.
  apply andb_true_iff in H as [Hc Ht]. simpl.
  rewrite (isUpper_toUpper c Hc), (toLower_toUpper c Hc), (snakeFrom_lower t _ Ht).
  now destruct first.
Qed.

Lemma snakeWord_no_underscore w : snakeWord w = true -> countChar "_" w = 0.
Proof.
  destruct w as [|c t]; [discriminate|]. intros H. simpl in H.
  apply andb_true_iff in H as [Hc Ht].
  apply (allChars_countChar isLowerOrDigit); [|reflexivity].
  simpl. now rewrite (isLower_facts c Hc), Ht.
Qed.

Lemma snake_of_pascal words : forall first,
  words <> [] -> (forall w, In w words -> snakeWord w = true) ->
  snakeFrom first (String.concat EmptyString (map capitalize words))
  = (if first then EmptyString else "_") ++ strings.Join words "_".
Proof.
  induction words as [|w words IH]; intros first Hne H; [contradiction|].
  destruct words as [|w2 words].
  - simpl map. simpl String.concat. rewrite <- (str_app_nil_r (capitalize w)).
    rewrite (snakeFrom_word w _ _ (H w (or_introl eq_refl))). simpl.
    now rewrite str_app_nil_r.
  - rewrite Join_cons2. cbn [map]. 
    change (String.concat EmptyString (capitalize w :: capitalize w2 :: map capitalize words))
      with (capitalize w ++ EmptyString
              ++ String.concat EmptyString (map capitalize (w2 :: words))).
    change (EmptyString ++ ?x) with x.
    rewrite (snakeFrom_word w _ _ (H w (or_introl eq_refl))).
    rewrite IH; [reflexivity | discriminate |].
    intros w' Hw'. apply H. now right.
Qed.

(** X16. From a name in snake case to Pascal case and back.  For a name
    made of words joined by underscores, every word a lower-case letter
    followed by lower-case letters and digits, ToSnakeCase undoes
    ToPascalCase, and ToCamelCase has the same snake case. *)
Theorem X16_snake_of_pascal (words : list string) :
  (forall w, In w words -> snakeWord w = true) ->
  ToSnakeCase (ToPascalCase (strings.Join words "_")) = strings.Join words "_" /\
  ToSnakeCase (ToCamelCase (strings.Join words "_")) = strings.Join words "_" /\
  ToPascalCase (strings.Join words "_") = String.concat EmptyString (map capitalize words).
Proof.
  intros H. destruct words as [|w0 words0] eqn:Ew; [repeat split; reflexivity|].
  rewrite <- Ew in *. assert (Hne : words <> []) by (rewrite Ew; discriminate).
  assert (Hp : ToPascalCase (strings.Join words "_")
               = String.concat EmptyString (map capitalize words)).
  { unfold ToPascalCase, strings.SplitChar.
    rewrite split_join; [|exact Hne|intros w Hw; apply snakeWord_no_underscore, H, Hw].
    rewrite pascalLoop_spec. rewrite Ew. reflexivity. }
  assert (Hs : ToSnakeCase (String.concat EmptyString (map capitalize words))
               = strings.Join words "_").
  { rewrite ToSnakeCase_spec. now rewrite (snake_of_pascal words true Hne H). }
  split; [now rewrite Hp|]. split; [|exact Hp].
  unfold ToCamelCase. rewrite Hp.
  destruct (String.concat EmptyString (map capitalize words)) as [|c tail] eqn:E;
    [exact Hs|].
  rewrite <- Hs. rewrite !ToSnakeCase_spec. simpl.
  now rewrite (toLower_id _ (isUpper_toLower c)).
Qed.

(** X16 at the name blog_post2. *)
Lemma X16_witness_blog_post :
  ToSnakeCase (ToPascalCase "blog_post2") = "blog_post2" /\
  ToPascalCase "blog_post2" = "BlogPost2" /\
  ToCamelCase "blog_post2" = "blogPost2".
Proof.
  assert (H : forall w, In w ["blog"; "post2"] -> snakeWord w = true).
  { intros w [<- | [<- | []]]; reflexivity. }
  destruct (X16_snake_of_pascal ["blog"; "post2"] H) as (Hs & _ & Hp).
  split; [exact Hs|]. split; [exact Hp | reflexivity].
Defined.

(** ** Quoted identifiers and placeholder lists *)

Lemma collapse_replace s :
  collapseBackticks (strings.ReplaceAllChar s backtick doubled) = s.
Proof.
  induction s as [|c s IH]; [reflexivity|].
  cbn [strings.ReplaceAllChar]. destruct (Ascii.eqb_spec c backtick) as [->|Hc].
  - change (doubled ++ ?x) with (String backtick (String backtick x)).
    cbn [collapseBackticks]. rewrite Ascii.eqb_refl. cbn [andb].
    now rewrite IH.
  - cbn [collapseBackticks].
    destruct (strings.ReplaceAllChar s backtick doubled) as [|b rest'] eqn:E.
    + simpl in IH. now rewrite <- IH.
    + apply Ascii.eqb_neq in Hc. rewrite Hc. cbn [andb]. now rewrite IH.
Qed.

Lemma countChar_replace s :
  countChar backtick (strings.ReplaceAllChar s backtick doubled)
  = 2 * countChar backtick s.
Proof.
  induction s as [|c s IH]; [reflexivity|].
  cbn [strings.ReplaceAllChar countChar].
  destruct (Ascii.eqb_spec c backtick) as [->|Hc].
  - change (doubled ++ ?x) with (String backtick (String backtick x)).
    cbn [countChar]. rewrite !Ascii.eqb_refl, IH. lia.
  - cbn [countChar]. apply Ascii.eqb_neq in Hc. rewrite Hc, IH. lia.
Qed.

Lemma length_replace s :
  String.length (strings.ReplaceAllChar s backtick doubled)
  = String.length s + countChar backtick s.
Proof.
  induction s as [|c s IH]; [reflexivity|].
  cbn [strings.ReplaceAllChar countChar String.length].
  destruct (Ascii.eqb c backtick).
  - change (doubled ++ ?x) with (String backtick (String backtick x)).
    cbn [String.length]. rewrite IH. lia.
  - cbn [String.length]. rewrite IH. lia.
Qed.

Lemma substring_middle a b body :
  substring 1 (String.length (String a (body ++ String b EmptyString)) - 2)
    (String a (body ++ String b EmptyString)) = body.
Proof.
  replace (String.length (String a (body ++ String b EmptyString)) - 2)
    with (String.length body)
    by (cbn [String.length]; rewrite str_length_app; simpl; lia).
  cbn [substring]. apply substring_0_app.
Qed.

Lemma Unescape_Escape s : UnescapeIdentifier (EscapeIdentifier s) = s.
Proof.
  unfold UnescapeIdentifier, EscapeIdentifier.
  rewrite substring_middle. apply collapse_replace.
Qed.

(** X17. EscapeIdentifier loses nothing and cannot be closed from inside.
    The identifier is read back from its quoted form by dropping the two
    outer backticks and halving the doubled ones, so two identifiers with
    the same quoted form are equal; the quoted form holds an even number of
    backticks, two for each one of the identifier and the two outer ones. *)
Theorem X17_escape_identifier (identifier : string) :
  UnescapeIdentifier (EscapeIdentifier identifier) = identifier /\
  (forall other, EscapeIdentifier identifier = EscapeIdentifier other ->
                 identifier = other) /\
  countChar backtick (EscapeIdentifier identifier)
    = 2 * countChar backtick identifier + 2 /\
  String.length (EscapeIdentifier identifier)
    = String.length identifier + countChar backtick identifier + 2.
Proof.
  split; [apply Unescape_Escape|]. split.
  - intros other H. rewrite <- (Unescape_Escape identifier), H.
    apply Unescape_Escape.
  - unfold EscapeIdentifier. fold doubled. cbn [countChar String.length].
    rewrite Ascii.eqb_refl, countChar_app, str_length_app, countChar_replace,
      length_replace.
    cbn [countChar String.length]. rewrite Ascii.eqb_refl. split; lia.
Qed.

Lemma Join_repeat_marks n :
  countChar "?" (strings.Join (repeat "?" (S n)) ", ") = S n /\
  countChar "," (strings.Join (repeat "?" (S n)) ", ") = n /\
  String.length (strings.Join (repeat "?" (S n)) ", ") = 3 * n + 1 /\
  strings.Join (repeat "?" (S n)) ", " <> EmptyString.
Proof.
  induction n as [|n (IH1 & IH2 & IH3 & _)].
  - repeat split; try reflexivity. discriminate.
  - change (repeat "?" (S (S n))) with ("?" :: "?" :: repeat "?" n).
    rewrite Join_cons2. change ("?" :: repeat "?" n) with (repeat "?" (S n)).
    rewrite !countChar_app, !str_length_app, IH1, IH2, IH3.
    split; [reflexivity|]. split; [reflexivity|]. split; [simpl; lia|].
    discriminate.
Qed.

Lemma Join_repeat_last n :
  exists q, strings.Join (repeat "?" (S n)) ", " = q ++ "?".
Proof.
  induction n as [|n [q Hq]].
  - now exists EmptyString.
  - change (repeat "?" (S (S n))) with ("?" :: "?" :: repeat "?" n).
    rewrite Join_cons2. change ("?" :: repeat "?" n) with (repeat "?" (S n)).
    rewrite Hq. exists ("?" ++ ", " ++ q). now rewrite !str_app_assoc.
Qed.

(** X18. BuildPlaceholders gives one question mark for each unit of a
    positive count, separated by a comma and a space and with no separator
    at either end; for a count of zero or below it gives the empty text, and
    only then. *)
Theorem X18_build_placeholders (count : Z) :
  (BuildPlaceholders count = EmptyString <-> (count <= 0)%Z) /\
  countChar "?" (BuildPlaceholders count) = Z.to_nat count /\
  countChar "," (BuildPlaceholders count) = Z.to_nat count - 1 /\
  String.length (BuildPlaceholders count) = 3 * Z.to_nat count - 2 /\
  (forall c, strings.HasPrefix (BuildPlaceholders count) (String c EmptyString) = true ->
             c = "?"%char) /\
  (forall c, endsWith (BuildPlaceholders count) (String c EmptyString) -> c = "?"%char).
Proof.
  unfold BuildPlaceholders. destruct (Z.leb_spec count 0) as [Hle|Hgt].
  - replace (Z.to_nat count) with 0 by lia.
    split; [tauto|]. split; [reflexivity|]. split; [reflexivity|].
    split; [reflexivity|]. split.
    + intros c H. discriminate H.
    + intros c [p Hp]. destruct p; discriminate Hp.
  - destruct (Z.to_nat count) as [|n] eqn:En; [lia|]. cbv zeta.
    destruct (Join_repeat_marks n) as (H1 & H2 & H3 & H4).
    split; [split; [intros H; contradiction | lia]|].
    split; [exact H1|]. split; [rewrite H2; lia|]. split; [rewrite H3; lia|].
    split.
    + intros c. unfold strings.HasPrefix.
      destruct n; simpl; destruct (ascii_dec c "?") as [e|_]; intros H;
        (exact e || discriminate H).
    + intros c [p Hp]. destruct (Join_repeat_last n) as [q Hq].
      rewrite Hq in Hp. symmetry. exact (str_app_inj_last _ _ _ _ Hp).
Qed.

(** ** The emitter's Go types and the base model *)

(** X19. The Go type the emitter picks for a schema type is always a row of
    the type mapper.  For the five schema types it has the column type of
    the schema type itself under every dialect; any other schema type falls
    back to the Go type string. *)
Theorem X19_go_type_matches_column_type (fieldType : string) :
  In (getGoType fieldType) (map fst typeTable) /\
  (In fieldType ["Int"; "String"; "Boolean"; "Float"; "DateTime"] ->
   forall driver,
     GetSQLType (getGoType fieldType) driver = GetSQLType fieldType driver) /\
  (~ In fieldType ["Int"; "String"; "Boolean"; "Float"; "DateTime"] ->
   getGoType fieldType = "string").
Proof.
  split; [|split].
  - unfold getGoType.
    destruct (fieldType =? "Int"); [simpl; tauto|].
    destruct (fieldType =? "String"); [simpl; tauto|].
    destruct (fieldType =? "Boolean"); [simpl; tauto|].
    destruct (fieldType =? "Float"); [simpl; tauto|].
    destruct (fieldType =? "DateTime"); simpl; tauto.
  - intros H driver.
    destruct H as [<- | [<- | [<- | [<- | [<- | []]]]]];
      unfold GetSQLType; cbn;
      destruct (driver =? "postgres"); try reflexivity;
      destruct (driver =? "mysql"); try reflexivity;
      destruct (driver =? "sqlite"); reflexivity.
  - intros H. unfold getGoType.
    destruct (String.eqb_spec fieldType "Int") as [->|_];
      [exfalso; apply H; simpl; tauto|].
    destruct (String.eqb_spec fieldType "String") as [->|_];
      [exfalso; apply H; simpl; tauto|].
    destruct (String.eqb_spec fieldType "Boolean") as [->|_];
      [exfalso; apply H; simpl; tauto|].
    destruct (String.eqb_spec fieldType "Float") as [->|_];
      [exfalso; apply H; simpl; tauto|].
    destruct (String.eqb_spec fieldType "DateTime") as [->|_];
      [exfalso; apply H; simpl; tauto|].
    reflexivity.
Qed.

(** X20. A model whose ID is zero is new whatever SetNew was given.  Touch
    always sets UpdatedAt, sets CreatedAt exactly when the model is new, and
    leaves the ID and the newness alone: a new model stays new, so of two
    calls of Touch only the later one shows. *)
Theorem X20_touch_keeps_model_new (b : BaseModel.t) (flag : bool) (now later : Z) :
  BaseModel.IsNew (BaseModel.SetNew b flag)
    = (flag || (BaseModel.ID b =? 0)%Z) /\
  (BaseModel.ID b = 0%Z -> BaseModel.IsNew (BaseModel.SetNew b false) = true) /\
  BaseModel.IsNew (BaseModel.Touch now b) = BaseModel.IsNew b /\
  BaseModel.ID (BaseModel.Touch now b) = BaseModel.ID b /\
  BaseModel.UpdatedAt (BaseModel.Touch now b) = now /\
  BaseModel.CreatedAt (BaseModel.Touch now b)
    = (if BaseModel.IsNew b then now else BaseModel.CreatedAt b) /\
  BaseModel.Touch later (BaseModel.Touch now b) = BaseModel.Touch later b.
Proof.
  destruct b as [id created updated new].
  unfold BaseModel.Touch, BaseModel.IsNew, BaseModel.SetNew. cbn.
  split; [reflexivity|]. split; [intros ->; reflexivity|].
  destruct new, (id =? 0)%Z eqn:E; cbn; rewrite ?E; cbn; repeat split; reflexivity.
Qed.
